(** * Cora (codrag): the index-store schema, the query request type and the
    HTTP entry point, embedded from [src/db/schema.ts], the request type
    declarations and [src/main.ts]. *)

From Stdlib Require Import ZArith String Ascii List Bool Lia.
From stdpp Require Import base option list strings pretty gmap sorting.

Local Open Scope string_scope.
Local Open Scope list_scope.
Local Open Scope Z_scope.

#[local] Set Warnings "-register-all".

(** ** Effects: state passing with JavaScript exceptions *)

Module Effects.

(** A thrown JavaScript value. The code only logs and rethrows it, so the
    message is all that is kept. *)
Inductive JsError := mkError (message : string).

Inductive Outcome (A : Type) :=
| Returned (a : A)
| Threw (e : JsError).
Arguments Returned {A} a.
Arguments Threw {A} e.

(** A computation over a mutable world [S].  The world after a throw is
    kept: mutations done before the exception stay visible. *)
Definition Eff (S A : Type) : Type := S -> Outcome A * S.

Definition eff_ret {S A} (a : A) : Eff S A := fun s => (Returned a, s).

Definition eff_bind {S A B} (k : A -> Eff S B) (m : Eff S A) : Eff S B :=
  fun s =>
    match m s with
    | (Returned a, s') => k a s'
    | (Threw e, s') => (Threw e, s')
    end.

#[global] Instance Eff_mret {S} : MRet (Eff S) := @eff_ret S.
#[global] Instance Eff_mbind {S} : MBind (Eff S) := @eff_bind S.

Definition throw {S A} (e : JsError) : Eff S A := fun s => (Threw e, s).

(** [try { body } catch (err) { handler err }] *)
Definition try_catch {S A} (body : Eff S A) (handler : JsError -> Eff S A)
  : Eff S A :=
  fun s =>
    match body s with
    | (Returned a, s') => (Returned a, s')
    | (Threw e, s') => handler e s'
    end.

Definition modify {S} (f : S -> S) : Eff S unit := fun s => (Returned tt, f s).

(** Arguments of a [console.log] / [console.error] call. *)
Inductive LogArg := AStr (s : string) | AErr (e : JsError).
Inductive LogEntry :=
| ConsoleLog (args : list LogArg)
| ConsoleError (args : list LogArg).

End Effects.
Import Effects.

(** The double-quote character, for string literals that contain it. *)
Definition dq : string := String (ascii_of_nat 34) EmptyString.

(** ** The schema objects of [src/db/schema.ts] *)

(** The [configure.dataType] constants of the store client library. *)
Module dataType.
Definition TEXT : string := "text".
Definition INT : string := "int".
Definition DATE : string := "date".
End dataType.

(** One entry of a class's [properties] array.  [indexFilterable] and
    [indexSearchable] are [None] where the object literal has no such key. *)
Record Property := {
  name : string;
  dataType : list string;
  description : string;
  indexFilterable : option bool;
  indexSearchable : option bool
}.

Record VectorConfig := {
  vectorizer : string;
  dimension : Z
}.

Record ClassSchema := {
  class : string;
  namedVectors : gmap string VectorConfig;
  properties : list Property
}.

Definition prop (n : string) (dt : list string) (d : string)
    (f s : option bool) : Property :=
  {| name := n; dataType := dt; description := d;
     indexFilterable := f; indexSearchable := s |}.

Definition contentEntityDefinitionSchema : ClassSchema := {|
  class := "ContentEntityDefinition";
  namedVectors := ∅;
  properties := [
    prop "identifier" ["text"]
      "The name or heading of this entity (function name, class name, doc section, etc.)"
      (Some true) (Some true);
    prop "entityType" ["text"]
      "High-level type: function, class, markdownSection, etc."
      (Some true) (Some true);
    prop "fileVersion" ["FileVersion"]
      "Reference to the specific FileVersion in which this definition appears"
      None None;
    prop "filePath" ["text"]
      "The file path for this definition, typically redundant with fileVersion but convenient."
      (Some true) (Some true);
    prop "lineStart" ["int"]
      "Line number where the definition starts"
      (Some true) None;
    prop "lineEnd" ["int"]
      "Line number where the definition ends"
      (Some true) None;
    prop "definedInChunk" ["Chunk"]
      "Optional reference to the chunk that physically contains the definition"
      None None
  ]
|}.

Definition contentEntityReferenceSchema : ClassSchema := {|
  class := "ContentEntityReference";
  namedVectors := ∅;
  properties := [
    prop "identifierUsed" ["text"]
      ("The literal name or heading used in the referencing code or doc. E.g., "
         +:+ dq +:+ "fooMethod" +:+ dq +:+ ".")
      (Some true) (Some true);
    prop "referenceType" ["text"]
      "call, import, link, reexport, mention, etc."
      (Some true) (Some true);
    prop "fileVersion" ["FileVersion"]
      "The version of the file in which this reference occurs"
      None None;
    prop "filePath" ["text"]
      "The referencing file path (optional if implied by fileVersion)"
      (Some true) (Some true);
    prop "lineStart" ["int"]
      "Line where this reference is used"
      (Some true) None;
    prop "lineEnd" ["int"]
      "Line range end for the usage"
      (Some true) None;
    prop "appearsInChunk" ["Chunk"]
      "Reference to the chunk containing this usage, if you want chunk-level linking"
      None None
  ]
|}.

Definition fileVersionSchema : ClassSchema := {|
  class := "FileVersion";
  namedVectors := ∅;
  properties := [
    prop "repoId" [dataType.TEXT] "Repository identifier"
      (Some true) (Some true);
    prop "projectDir" [dataType.TEXT] "Project directory path"
      (Some true) (Some true);
    prop "filePath" [dataType.TEXT] "Path to the file within the project"
      (Some true) (Some true);
    prop "contentHash" [dataType.TEXT] "Hash of the file content"
      (Some true) (Some true);
    prop "chunks" ["Chunk"] "Associated code chunks from this file version"
      None None
  ]
|}.

Definition chunkSchema : ClassSchema := {|
  class := "Chunk";
  namedVectors :=
    {[ "embed_formatted_voyage_c3" :=
         {| vectorizer := "none"; dimension := 2048 |} ]};
  properties := [
    prop "content" [dataType.TEXT] "Verbatim code content of the chunk"
      None (Some true);
    prop "commentary" [dataType.TEXT] "AI-generated commentary about the chunk"
      None (Some true);
    prop "repoId" [dataType.TEXT]
      "An identifier for the repository this chunk comes from"
      (Some true) (Some true);
    prop "filePath" [dataType.TEXT] "Path to the source file"
      (Some true) (Some true);
    prop "contentHash" [dataType.TEXT]
      "A hash of the file content (for deduplication)"
      (Some true) (Some true);
    prop "lineStart" [dataType.INT] "Starting line number in the source file"
      (Some true) None;
    prop "lineEnd" [dataType.INT] "Ending line number in the source file"
      (Some true) None;
    prop "language" [dataType.TEXT] "Programming language of the chunk"
      (Some true) (Some true);
    prop "declarationType" [dataType.TEXT]
      "High-level classification (function, class, etc.)"
      (Some true) (Some true);
    prop "referenceSymbols" [dataType.TEXT]
      "Symbol-level references (imports, function calls, etc.)"
      (Some true) (Some true);
    prop "referenceChunks" ["Chunk"]
      "Cross-reference to other Chunks this chunk calls or depends on"
      None None;
    prop "fileVersion" ["FileVersion"]
      "Reference to the FileVersion this chunk belongs to"
      None None
  ]
|}.

Definition commitFileVersionSchema : ClassSchema := {|
  class := "CommitFileVersion";
  namedVectors := ∅;
  properties := [
    prop "commitHash" [dataType.TEXT] "Git commit hash"
      (Some true) (Some true);
    prop "fileVersion" ["FileVersion"] "Reference to the associated FileVersion"
      None None;
    prop "timestamp" [dataType.DATE] "Commit timestamp"
      (Some true) None
  ]
|}.

Definition property_names (c : ClassSchema) : list string :=
  map name (properties c).

(** ** The store client and [createAllSchemas] *)

(** What [createAllSchemas] can observe and change: the classes the store
    holds, in creation order, and the console. *)
Record World := {
  store : list ClassSchema;
  console : list LogEntry
}.

Definition console_log (args : list LogArg) : Eff World unit :=
  modify (fun w => {| store := store w;
                      console := console w ++ [ConsoleLog args] |}).

Definition console_error (args : list LogArg) : Eff World unit :=
  modify (fun w => {| store := store w;
                      console := console w ++ [ConsoleError args] |}).

Section Client.

(** The store is an external service: whether it refuses a class, given
    the classes it already holds, is its own business.  [Some e] is the
    rejection the client's promise carries. *)
Variable rejects : list ClassSchema -> ClassSchema -> option JsError.

(** [await client.schema.classCreator().withClass(c).do()] *)
Definition classCreator_do (c : ClassSchema) : Eff World unit :=
  fun w =>
    match rejects (store w) c with
    | Some e => (Threw e, w)
    | None => (Returned tt, {| store := store w ++ [c];
                               console := console w |})
    end.

Definition createAllSchemas : Eff World unit :=
  try_catch
    (classCreator_do chunkSchema ;;
     classCreator_do fileVersionSchema ;;
     classCreator_do commitFileVersionSchema ;;
     console_log [AStr "All schemas created successfully."])
    (fun err =>
       console_error [AStr "Error creating schemas:"; AErr err] ;;
       throw err).

End Client.

Definition class_names (w : World) : list string := map class (store w).

(** A fresh store that accepts every class it is sent. *)
Definition accept_all : list ClassSchema -> ClassSchema -> option JsError :=
  fun _ _ => None.
Definition fresh_world : World := {| store := []; console := [] |}.

(** The five record kinds the engine persists. *)
Definition persisted_kinds : list string :=
  ["Chunk"; "FileVersion"; "CommitFileVersion";
   "ContentEntityDefinition"; "ContentEntityReference"].

(** ** Objects stored under a class *)

(** A property value of a stored object.  A cross-reference property holds
    beacons: the class and the identity of each target object. *)
Inductive Value :=
| VText (s : string)
| VInt (z : Z)
| VDate (s : string)
| VRefs (targets : list (string * string)).

Definition is_primitive (dt : string) : bool :=
  bool_decide (dt ∈ ["text"; "int"; "date"]).

(** Does a value have the shape a property's [dataType] declares? *)
Definition value_fits (dt : list string) (v : Value) : bool :=
  match v with
  | VText _ => bool_decide (dt = ["text"])
  | VInt _ => bool_decide (dt = ["int"])
  | VDate _ => bool_decide (dt = ["date"])
  | VRefs targets =>
      forallb (fun d => negb (is_primitive d)) dt
      && forallb (fun t => bool_decide (t.1 ∈ dt)) targets
  end.

(** The stored shape of a class: every key of the object is one of the
    class's declared properties and its value fits the declared type.
    Properties may be absent. *)
Definition conforms (c : ClassSchema) (o : gmap string Value) : bool :=
  forallb
    (fun kv => existsb
       (fun p => bool_decide (name p = kv.1) && value_fits (dataType p) kv.2)
       (properties c))
    (map_to_list o).

(** The fields the specification lists for a chunk. *)
Definition spec_chunk_fields : list string :=
  ["content"; "commentary"; "lineStart"; "lineEnd"; "language";
   "declarationType"; "referenceSymbols"; "referenceChunks"; "fileVersion"].

(** What a reference record knows about its own side. *)
Definition usage_side_fields : list string :=
  ["identifierUsed"; "referenceType"; "fileVersion"; "filePath";
   "lineStart"; "lineEnd"; "appearsInChunk"].

Definition sample_reference : gmap string Value :=
  <["identifierUsed" := VText "helperFunction"]>
  (<["referenceType" := VText "call"]>
  (<["fileVersion" := VRefs [("FileVersion", "fv-A1")]]>
  (<["filePath" := VText "src/a.ts"]>
  (<["lineStart" := VInt 10]>
  (<["lineEnd" := VInt 10]>
  (<["appearsInChunk" := VRefs [("Chunk", "chunk-7")]]> ∅)))))).

Definition sample_chunk : gmap string Value :=
  <["content" := VText "export function helperFunction() {}"]>
  (<["repoId" := VText "repoA"]>
  (<["filePath" := VText "src/a.ts"]>
  (<["contentHash" := VText "9f2c"]>
  (<["lineStart" := VInt 1]>
  (<["lineEnd" := VInt 1]>
  (<["fileVersion" := VRefs [("FileVersion", "fv-A1")]]> ∅)))))).

(** ** Stored objects with their vectors *)

(** An object as the store holds it: its property values and the vectors
    it carries, by name.  [F] is the type of vector components, which
    nothing here inspects. *)
Record StoredObject (F : Type) := {
  obj_properties : gmap string Value;
  obj_vectors : gmap string (list F)
}.
Arguments obj_properties {F} _.
Arguments obj_vectors {F} _.

(** The stored shape of a class, vectors included: the properties conform
    and every vector is held under a named vector the class declares.  A
    vector may be absent, as a property may. *)
Definition stored_under {F} (c : ClassSchema) (o : StoredObject F) : bool :=
  conforms c (obj_properties o)
  && forallb (fun kv => bool_decide (is_Some (namedVectors c !! kv.1)))
       (map_to_list (obj_vectors o)).

(** The properties the Chunk class declares. *)
Definition stored_chunk_fields : list string :=
  ["content"; "commentary"; "repoId"; "filePath"; "contentHash";
   "lineStart"; "lineEnd"; "language"; "declarationType";
   "referenceSymbols"; "referenceChunks"; "fileVersion"].

Definition chunk_embedding_config : option VectorConfig :=
  namedVectors chunkSchema !! "embed_formatted_voyage_c3".

(** Integers stand for the components of the sample vectors. *)
Definition sample_embedding : list Z := replicate 2048 0.

(** A chunk with its embedding. *)
Definition embedded_chunk : StoredObject Z :=
  {| obj_properties := sample_chunk;
     obj_vectors := {[ "embed_formatted_voyage_c3" := sample_embedding ]} |}.

(** The same chunk stored without a vector. *)
Definition bare_chunk : StoredObject Z :=
  {| obj_properties := sample_chunk; obj_vectors := ∅ |}.

(** A chunk whose fileVersion property links to two file versions. *)
Definition two_versions_chunk : StoredObject Z :=
  {| obj_properties :=
       <["content" := VText "export function helperFunction() {}"]>
       (<["fileVersion" :=
            VRefs [("FileVersion", "fv-A1"); ("FileVersion", "fv-A2")]]> ∅);
     obj_vectors := ∅ |}.

(** ** JSON values and the request types *)

(** A JSON value.  Numbers are kept as integers, which is all the values
    built here need; nothing below inspects a number. *)
Inductive Json :=
| JNull
| JBool (b : bool)
| JNum (z : Z)
| JStr (s : string)
| JArr (items : list Json)
| JObj (fields : gmap string Json).

(** The part of the TypeScript type language the declarations use.  An
    object type lists its members in declaration order; the flag is [true]
    for a member declared with [?]. *)
Inductive TsType :=
| TString
| TNumber
| TBoolean
| TArray (elem : TsType)
| TObject (members : list (string * bool * TsType)).

(** Structural conformance of a value to a type: a member that is present
    must have its declared type, and only an optional member may be
    absent. *)
Fixpoint has_type (t : TsType) (v : Json) {struct t} : bool :=
  match t, v with
  | TString, JStr _ => true
  | TNumber, JNum _ => true
  | TBoolean, JBool _ => true
  | TArray e, JArr items => forallb (has_type e) items
  | TObject ms, JObj fields =>
      (fix members_ok (ms : list (string * bool * TsType)) : bool :=
         match ms with
         | [] => true
         | (n, opt, mt) :: ms' =>
             match fields !! n with
             | Some x => has_type mt x
             | None => opt
             end && members_ok ms'
         end) ms
  | _, _ => false
  end.

Definition CodeChunk : TsType :=
  TObject [
    ("content", false, TString);
    ("commentary", true, TString);
    ("filePath", false, TString);
    ("lineStart", false, TNumber);
    ("lineEnd", false, TNumber);
    ("language", false, TString);
    ("declarationType", false, TString);
    ("references", false, TArray TString)
  ].

Definition Message : TsType :=
  TObject [("role", false, TString); ("content", false, TString)].

Definition Repo : TsType :=
  TObject [
    ("originUri", false, TString);
    ("checkoutPath", true, TString);
    ("versionSpecifier", false, TString)
  ].

Definition Declaration : TsType :=
  TObject [
    ("repoId", false, TString);
    ("path", false, TString);
    ("includeImplementation", false, TBoolean)
  ].

Definition BoostDirectives : TsType :=
  TObject [
    ("files", true, TArray TString);
    ("declarations", true, TArray Declaration)
  ].

Definition QueryRequest : TsType :=
  TObject [
    ("messages", false, TArray Message);
    ("approxLength", false, TNumber);
    ("repos", false, TArray Repo);
    ("boostDirectives", true, BoostDirectives)
  ].

(** The members of an object type with their optional flags. *)
Definition members_of (t : TsType) : list (string * bool) :=
  match t with
  | TObject ms => map (fun m => (m.1.1, m.1.2)) ms
  | _ => []
  end.

Definition sample_messages : Json :=
  JArr [
    JObj (<["role" := JStr "system"]>
          (<["content" := JStr "You are a code-assistant."]> ∅));
    JObj (<["role" := JStr "user"]>
          (<["content" := JStr "Explain how concurrency logic works in repo A"]> ∅))
  ].

(** The example payload of the README. *)
Definition sample_request : Json :=
  JObj (<["messages" := sample_messages]>
        (<["approxLength" := JNum 8000]>
        (<["repos" := JArr [
             JObj (<["originUri" := JStr "http://github.com/organization/repoA"]>
                   (<["checkoutPath" := JStr "/path/to/repoA"]>
                   (<["versionSpecifier" := JStr "latest"]> ∅)))]]>
        (<["boostDirectives" :=
             JObj (<["files" := JArr [JStr "README.md"]]>
                   (<["declarations" := JArr [
                        JObj (<["repoId" := JStr "repoA"]>
                              (<["path" := JStr "src/concurrency"]>
                              (<["includeImplementation" := JBool true]> ∅)))]]>
                    ∅))]> ∅)))).

(** The same request with the repo's version specifier left out. *)
Definition request_without_version : Json :=
  JObj (<["messages" := sample_messages]>
        (<["approxLength" := JNum 8000]>
        (<["repos" := JArr [
             JObj (<["originUri" := JStr "http://github.com/organization/repoA"]>
                   (<["checkoutPath" := JStr "/path/to/repoA"]> ∅))]]>
         ∅))).

(** *** The request shape, spelled out on JSON values *)

Definition is_message (m : Json) : Prop :=
  exists mf role content,
    m = JObj mf /\ mf !! "role" = Some (JStr role) /\
    mf !! "content" = Some (JStr content).

(** A repo entry: origin and version specifier are there, the checkout
    path may be left out. *)
Definition is_repo (r : Json) : Prop :=
  exists rf uri ver,
    r = JObj rf /\ rf !! "originUri" = Some (JStr uri) /\
    rf !! "versionSpecifier" = Some (JStr ver) /\
    (rf !! "checkoutPath" = None \/
     exists p, rf !! "checkoutPath" = Some (JStr p)).

Definition is_declaration (d : Json) : Prop :=
  exists df id p b,
    d = JObj df /\ df !! "repoId" = Some (JStr id) /\
    df !! "path" = Some (JStr p) /\
    df !! "includeImplementation" = Some (JBool b).

Definition is_boost_directives (b : Json) : Prop :=
  exists bf,
    b = JObj bf /\
    (bf !! "files" = None \/
     exists fs, bf !! "files" = Some (JArr fs) /\
                forall f, f ∈ fs -> exists s, f = JStr s) /\
    (bf !! "declarations" = None \/
     exists ds, bf !! "declarations" = Some (JArr ds) /\
                forall d, d ∈ ds -> is_declaration d).

Definition is_query_request (req : Json) : Prop :=
  exists fields msgs n repos,
    req = JObj fields /\
    fields !! "messages" = Some (JArr msgs) /\
    (forall m, m ∈ msgs -> is_message m) /\
    fields !! "approxLength" = Some (JNum n) /\
    fields !! "repos" = Some (JArr repos) /\
    (forall r, r ∈ repos -> is_repo r) /\
    (fields !! "boostDirectives" = None \/
     exists b, fields !! "boostDirectives" = Some b /\ is_boost_directives b).

(** ** JavaScript numbers from [parseInt] *)

(** The results [parseInt] can produce: an integer-valued double, a
    negative zero, an infinity, or NaN. *)
Inductive JsNumber :=
| NaN
| Num (z : Z)
| NegZero
| Infinity (negative : bool).

Definition code (c : ascii) : Z := Z.of_N (N_of_ascii c).

(** White space and line terminators among the code units below 256:
    TAB, LF, VT, FF, CR, SP and NBSP. *)
Definition is_white_space (c : ascii) : bool :=
  bool_decide (code c ∈ [9; 10; 11; 12; 13; 32; 160]).

Fixpoint trim_start (s : string) : string :=
  match s with
  | String c rest => if is_white_space c then trim_start rest else s
  | EmptyString => EmptyString
  end.

(** The value of a digit in radixes up to 36. *)
Definition digit_value (c : ascii) : option Z :=
  let n := code c in
  if (48 <=? n) && (n <=? 57) then Some (n - 48)
  else if (97 <=? n) && (n <=? 122) then Some (n - 87)
  else if (65 <=? n) && (n <=? 90) then Some (n - 55)
  else None.

(** The integer denoted by the longest prefix of radix-[R] digits; [acc]
    is [None] while no digit has been read. *)
Fixpoint parse_digits (R : Z) (s : string) (acc : option Z) : option Z :=
  match s with
  | EmptyString => acc
  | String c rest =>
      match digit_value c with
      | Some d =>
          if d <? R then parse_digits R rest (Some (default 0 acc * R + d))
          else acc
      | None => acc
      end
  end.

(** The double nearest to a positive integer, ties to even; [None] when it
    is beyond the finite range. *)
Definition round_double (n : Z) : option Z :=
  let bits := Z.log2 n + 1 in
  if bits <=? 53 then Some n
  else
    let sh := bits - 53 in
    let q := Z.shiftr n sh in
    let r := Z.land n (Z.ones sh) in
    let half := Z.shiftl 1 (sh - 1) in
    let q' := if (half <? r) || ((r =? half) && Z.odd q) then q + 1 else q in
    let m := Z.shiftl q' sh in
    if m <? 2 ^ 1024 then Some m else None.

(** [parseInt(s)] with no radix argument, after the language standard:
    leading white space is dropped, then an optional sign, then an
    optional 0x or 0X prefix that selects radix 16, then the longest run of
    digits is read; no digit gives NaN.  Strings are sequences of code
    units below 256. *)
Definition parseInt (s : string) : JsNumber :=
  let s := trim_start s in
  let '(negative, s) :=
    match s with
    | String "-" rest => (true, rest)
    | String "+" rest => (false, rest)
    | _ => (false, s)
    end in
  let '(R, s) :=
    match s with
    | String "0" (String "x" rest) => (16, rest)
    | String "0" (String "X" rest) => (16, rest)
    | _ => (10, s)
    end in
  match parse_digits R s None with
  | None => NaN
  | Some mathInt =>
      if mathInt =? 0 then (if negative then NegZero else Num 0)
      else match round_double mathInt with
           | Some m => Num (if negative then - m else m)
           | None => Infinity negative
           end
  end.

(** [a || b] where [a] is a string or undefined: the empty string and
    undefined are the falsy ones. *)
Definition js_or (a : option string) (b : string) : string :=
  match a with
  | Some s => if bool_decide (s = "") then b else s
  | None => b
  end.

(** ** The HTTP entry point of [src/main.ts] *)

Module Main.

(** The response of a context.  It stops being writable once it has been
    sent or destroyed. *)
Record Response := {
  status : Z;
  body : option Json;
  writable : bool
}.

Record Context := {
  response : Response
}.

(** The running server as a request sees it: its context and the
    process's console. *)
Record Process := {
  ctx : Context;
  console : list LogEntry
}.

(** [(ctx, next) => ...]: the context is in the state, [next] is the
    rest of the middleware chain. *)
Definition Middleware : Type := Eff Process unit -> Eff Process unit.

Definition console_error (args : list LogArg) : Eff Process unit :=
  modify (fun p => {| ctx := ctx p;
                      console := console p ++ [ConsoleError args] |}).

(** What the response setters of the framework throw once the response
    is not writable. *)
Definition not_writable : JsError := mkError "The response is not writable.".

(** [ctx.response.status = n]: the framework's setter throws when the
    response is not writable. *)
Definition set_status (n : Z) : Eff Process unit :=
  fun p =>
    if writable (response (ctx p)) then
      (Returned tt,
       {| ctx := {| response := {| status := n;
                                   body := body (response (ctx p));
                                   writable := true |} |};
          console := console p |})
    else (Threw not_writable, p).

(** [ctx.response.body = b]: throws like the status setter. *)
Definition set_body (b : Json) : Eff Process unit :=
  fun p =>
    if writable (response (ctx p)) then
      (Returned tt,
       {| ctx := {| response := {| status := status (response (ctx p));
                                   body := Some b;
                                   writable := true |} |};
          console := console p |})
    else (Threw not_writable, p).

(** [ctx.response.destroy()]: the response drops its body and is not
    writable from then on. *)
Definition destroy : Eff Process unit :=
  modify (fun p =>
    {| ctx := {| response := {| status := status (response (ctx p));
                                body := None;
                                writable := false |} |};
       console := console p |}).

Definition errorMiddleware : Middleware :=
  fun next =>
    try_catch next
      (fun err =>
         console_error [AErr err] ;;
         set_status 500 ;;
         set_body (JObj {[ "error" := JStr "Internal server error" ]})).

(** The middleware chain: each [app.use] appends, and a middleware's
    [next] runs the ones registered after it. *)
Fixpoint compose (mws : list Middleware) : Eff Process unit :=
  match mws with
  | [] => mret tt
  | m :: rest => m (compose rest)
  end.

(** [Deno.env.get] reads the process environment. *)
Definition port (env : gmap string string) : JsNumber :=
  parseInt (js_or (env !! "PORT") "3000").

Definition internal_server_error : Response :=
  {| status := 500;
     body := Some (JObj {[ "error" := JStr "Internal server error" ]});
     writable := true |}.

(** A route handler that sets a status and then throws. *)
Definition failing_route : Middleware :=
  fun _ => set_status 200 ;; throw (mkError "boom").

(** A route handler that destroys the response and then throws. *)
Definition destroying_route : Middleware :=
  fun _ => destroy ;; throw (mkError "boom").

Definition idle : Process :=
  {| ctx := {| response := {| status := 404; body := None;
                              writable := true |} |};
     console := [] |}.

(** The process after a downstream exception [e] was logged. *)
Definition logged (e : JsError) (p : Process) : Process :=
  {| ctx := ctx p; console := console p ++ [ConsoleError [AErr e]] |}.

End Main.

(** ** Reference resolution *)

Module Resolver.

(** Modelled from the spec: the resolver is designed in the
    specification and the design notes but has no code in this
    repository.  A definition record as the resolver reads it: the
    stored ContentEntityDefinition with its identity in the store, the
    repository and path of its FileVersion, and the timestamp of the
    commit that carries that version when one is known. *)
Record ContentEntityDefinition := {
  def_id : N;
  identifier : string;
  entityType : string;
  repoId : string;
  filePath : string;
  lineStart : Z;
  lineEnd : Z;
  commitTime : option Z
}.

(** Modelled from the spec: the constraints of a [resolve] call: the
    optional entity-type filter, the optional path hint carried on the
    reference, and the provenance of the reference. *)
Record Constraints := {
  want_entityType : option string;
  want_filePath : option string;
  ref_repoId : string;
  ref_filePath : string;
  ref_commitTime : option Z
}.

(** Modelled from the spec: an optional filter holds when it is not given
    or when it equals the definition's value. *)
Definition opt_matches (want : option string) (have : string) : bool :=
  match want with
  | Some w => bool_decide (w = have)
  | None => true
  end.

(** Modelled from the spec: matching is an exact identifier match,
    optionally filtered by entity type and by the path hint. *)
Definition matches (identifierUsed : string) (c : Constraints)
    (d : ContentEntityDefinition) : bool :=
  bool_decide (identifier d = identifierUsed)
  && opt_matches (want_entityType c) (entityType d)
  && opt_matches (want_filePath c) (filePath d).

(** Modelled from the spec: helper of [dirname] below. *)
Fixpoint has_slash (s : string) : bool :=
  match s with
  | EmptyString => false
  | String c rest => bool_decide (c = "/"%char) || has_slash rest
  end.

(** Modelled from the spec: the directory part of a path, for the 'same
    directory' step of path proximity: what precedes its last slash. *)
Fixpoint dirname (s : string) : string :=
  match s with
  | EmptyString => EmptyString
  | String c rest => if has_slash rest then String c (dirname rest) else EmptyString
  end.

(** Modelled from the spec: version proximity.  With a commit on the
    reference, definitions valid at or before it come first, the most
    recent of them first; without one, the most recent version comes
    first.  Smaller is better. *)
Definition version_rank (c : Constraints) (d : ContentEntityDefinition)
  : Z * Z :=
  match ref_commitTime c, commitTime d with
  | Some r, Some t => if t <=? r then (0, r - t) else (1, t - r)
  | Some _, None => (2, 0)
  | None, Some t => (0, - t)
  | None, None => (1, 0)
  end.

(** Modelled from the spec: path proximity: same file, then same
    directory, then same repository, then another repository. *)
Definition path_rank (c : Constraints) (d : ContentEntityDefinition) : Z :=
  if bool_decide (repoId d = ref_repoId c) then
    if bool_decide (filePath d = ref_filePath c) then 0
    else if bool_decide (dirname (filePath d) = dirname (ref_filePath c))
         then 1 else 2
  else 3.

(** Modelled from the spec: the tie-break order as one key: version
    proximity, then path proximity, then definition identity. *)
Definition rank_key (c : Constraints) (d : ContentEntityDefinition)
  : list Z :=
  [(version_rank c d).1; (version_rank c d).2; path_rank c d;
   Z.of_N (def_id d)].

(** Modelled from the spec: keys are compared component by component,
    an earlier component deciding before a later one. *)
Fixpoint lex_leb (k1 k2 : list Z) : bool :=
  match k1, k2 with
  | [], _ => true
  | _ :: _, [] => false
  | x :: k1', y :: k2' => (x <? y) || ((x =? y) && lex_leb k1' k2')
  end.

(** Modelled from the spec: candidate [a] is listed no later than [b]. *)
Definition candidate_le (c : Constraints)
    (a b : ContentEntityDefinition) : Prop :=
  lex_leb (rank_key c a) (rank_key c b).

(** Modelled from the spec: [resolve(identifierUsed, constraints)] over
    the definition records the store returns, in whatever order it
    returns them: keep the matching ones and order them by the
    tie-break key.  The optional extra hop for a reexport changes which
    identifier is looked up, not how candidates are ordered, and is left
    to the caller. *)
Definition resolve (identifierUsed : string) (c : Constraints)
    (defs : list ContentEntityDefinition) : list ContentEntityDefinition :=
  merge_sort (candidate_le c)
    (filter (fun d => matches identifierUsed c d) defs).

Definition helper_v1 : ContentEntityDefinition :=
  {| def_id := 11; identifier := "helperFunction"; entityType := "function";
     repoId := "repoA"; filePath := "src/a.ts";
     lineStart := 3; lineEnd := 9; commitTime := Some 100 |}.
Definition helper_v2 : ContentEntityDefinition :=
  {| def_id := 12; identifier := "helperFunction"; entityType := "function";
     repoId := "repoA"; filePath := "src/a.ts";
     lineStart := 3; lineEnd := 12; commitTime := Some 200 |}.
Definition helper_other : ContentEntityDefinition :=
  {| def_id := 7; identifier := "helperFunction"; entityType := "function";
     repoId := "repoB"; filePath := "lib/util.ts";
     lineStart := 40; lineEnd := 44; commitTime := Some 100 |}.
Definition my_class : ContentEntityDefinition :=
  {| def_id := 3; identifier := "MyClass"; entityType := "class";
     repoId := "repoA"; filePath := "src/a.ts";
     lineStart := 14; lineEnd := 60; commitTime := Some 100 |}.

(** A reference in src/b.ts of repoA at a commit of time 150. *)
Definition from_b : Constraints :=
  {| want_entityType := None; want_filePath := None;
     ref_repoId := "repoA"; ref_filePath := "src/b.ts";
     ref_commitTime := Some 150 |}.

Definition store_order_1 : list ContentEntityDefinition :=
  [helper_v1; helper_v2; helper_other; my_class].
Definition store_order_2 : list ContentEntityDefinition :=
  [my_class; helper_other; helper_v2; helper_v1].

End Resolver.

(** ** Vocabulary for runs of [createAllSchemas] *)

(** The classes [createAllSchemas] sends to the store, in the order it
    sends them. *)
Definition created_classes : list ClassSchema :=
  [chunkSchema; fileVersionSchema; commitFileVersionSchema].

(** The console line of the catch block. *)
Definition error_line (e : JsError) : LogEntry :=
  ConsoleError [AStr "Error creating schemas:"; AErr e].

Definition success_line : LogEntry :=
  ConsoleLog [AStr "All schemas created successfully."].

(** The classes a schema's cross-reference properties point to. *)
Definition ref_targets (c : ClassSchema) : list string :=
  List.filter (fun d => negb (is_primitive d))
    (concat (map dataType (properties c))).

(** A store that refuses a class whose name it already holds. *)
Definition refuses_duplicates
    (rejects : list ClassSchema -> ClassSchema -> option JsError) : Prop :=
  forall held c, class c ∈ map class held -> is_Some (rejects held c).

(** A store that refuses a class with a cross-reference to a class that is
    neither held already nor the class itself. *)
Definition checks_references
    (rejects : list ClassSchema -> ClassSchema -> option JsError) : Prop :=
  forall held c t,
    t ∈ ref_targets c -> t <> class c -> t ∉ map class held ->
    is_Some (rejects held c).

Definition unique_names_store
    : list ClassSchema -> ClassSchema -> option JsError :=
  fun held c =>
    if bool_decide (class c ∈ map class held)
    then Some (mkError "class already exists") else None.

Definition strict_store : list ClassSchema -> ClassSchema -> option JsError :=
  fun held c =>
    if existsb (fun t => negb (bool_decide (t = class c))
                         && negb (bool_decide (t ∈ map class held)))
         (ref_targets c)
    then Some (mkError "reference to a class that does not exist") else None.

(** A store that refuses the FileVersion class and nothing else. *)
Definition no_file_version : list ClassSchema -> ClassSchema -> option JsError :=
  fun _ c =>
    if bool_decide (class c = "FileVersion")
    then Some (mkError "refused") else None.

(** ** The steps of [parseInt], named *)

(** The sign step: an optional leading sign is split off. *)
Definition split_sign (s : string) : bool * string :=
  match s with
  | String "-" rest => (true, rest)
  | String "+" rest => (false, rest)
  | _ => (false, s)
  end.

(** The radix step: a leading 0x or 0X selects radix 16. *)
Definition split_radix (s : string) : Z * string :=
  match s with
  | String "0" (String "x" rest) => (16, rest)
  | String "0" (String "X" rest) => (16, rest)
  | _ => (10, s)
  end.

(** The last step: from the digits read, if any, to the number. *)
Definition to_number (negative : bool) (r : option Z) : JsNumber :=
  match r with
  | None => NaN
  | Some mathInt =>
      if mathInt =? 0 then (if negative then NegZero else Num 0)
      else match round_double mathInt with
           | Some m => Num (if negative then - m else m)
           | None => Infinity negative
           end
  end.

Definition is_decimal_digit (c : ascii) : bool :=
  (48 <=? code c) && (code c <=? 57).

(** The string is empty or begins with something other than a decimal
    digit. *)
Definition stops_decimal (s : string) : Prop :=
  match s with
  | EmptyString => True
  | String c _ => is_decimal_digit c = false
  end.

Fixpoint all_white_space (s : string) : bool :=
  match s with
  | EmptyString => true
  | String c rest => is_white_space c && all_white_space rest
  end.

(** What is left of a value after leading white space and one sign. *)
Definition unsigned_part (s : string) : string :=
  (split_sign (trim_start s)).2.

(** ** The earlier schema files (src/unnamed/part_002) *)

(** The first of the two files declares the chunk as a type alias, with
    every member required. *)
Module FirstDraft.

Definition CodeChunk : TsType :=
  TObject [
    ("content", false, TString);
    ("commentary", false, TString);
    ("filePath", false, TString);
    ("lineStart", false, TNumber);
    ("lineEnd", false, TNumber);
    ("language", false, TString);
    ("declarationType", false, TString);
    ("references", false, TArray TString)
  ].

End FirstDraft.

(** The second file: the extended CodeChunk class and the function that
    creates it. *)
Module SecondDraft.

Record CodeChunkClass := {
  class : string;
  vectorizer : string;
  vectorIndexConfig : gmap string string;
  properties : list Property;
  moduleConfig : gmap string (gmap string string)
}.

Definition coraSchema : CodeChunkClass := {|
  class := "CodeChunk";
  vectorizer := "text2vec-openai";
  vectorIndexConfig := {[ "distance" := "cosine" ]};
  properties := [
    prop "content" [dataType.TEXT] "Verbatim code content of the chunk"
      None (Some true);
    prop "commentary" [dataType.TEXT] "AI-generated commentary about the chunk"
      None (Some true);
    prop "filePath" [dataType.TEXT] "Path to the source file"
      (Some true) (Some true);
    prop "repoId" [dataType.TEXT]
      "An identifier for the repository this chunk comes from"
      (Some true) (Some true);
    prop "commitHash" [dataType.TEXT]
      "Commit hash for the version of this file chunk"
      (Some true) (Some true);
    prop "contentHash" [dataType.TEXT]
      "A hash of the file content (for deduplication)"
      (Some true) (Some true);
    prop "lineStart" [dataType.INT] "Starting line number in the source file"
      (Some true) None;
    prop "lineEnd" [dataType.INT] "Ending line number in the source file"
      (Some true) None;
    prop "language" [dataType.TEXT] "Programming language of the chunk"
      (Some true) (Some true);
    prop "declarationType" [dataType.TEXT]
      "High-level classification (function, class, etc.)"
      (Some true) (Some true);
    prop "referenceSymbols" [dataType.TEXT]
      "Symbol-level references (imports, function calls, etc.)"
      (Some true) (Some true);
    prop "referenceChunks" ["CodeChunk"]
      "Cross-reference to other CodeChunks this chunk calls or depends on"
      None None
  ];
  moduleConfig :=
    {[ "text2vec-openai" :=
         {[ "model" := "code-davinci-002";
            "modelVersion" := "002";
            "type" := "code" ]} ]}
|}.

Record World := {
  store : list CodeChunkClass;
  console : list LogEntry
}.

Definition console_log (args : list LogArg) : Eff World unit :=
  modify (fun w => {| store := store w;
                      console := console w ++ [ConsoleLog args] |}).

Definition console_error (args : list LogArg) : Eff World unit :=
  modify (fun w => {| store := store w;
                      console := console w ++ [ConsoleError args] |}).

Section Client.

(** The store's answer to a class creation, as for [createAllSchemas]. *)
Variable rejects : list CodeChunkClass -> CodeChunkClass -> option JsError.

(** [await client.schema.classCreator().withClass(c).do()] *)
Definition classCreator_do (c : CodeChunkClass) : Eff World unit :=
  fun w =>
    match rejects (store w) c with
    | Some e => (Threw e, w)
    | None => (Returned tt, {| store := store w ++ [c];
                               console := console w |})
    end.

Definition createCoraSchema : Eff World unit :=
  try_catch
    (classCreator_do coraSchema ;;
     console_log [AStr "CodeChunk schema created successfully."])
    (fun err =>
       console_error [AStr "Error creating CodeChunk schema:"; AErr err] ;;
       throw err).

End Client.

(** A store that refuses a class whose name it already holds. *)
Definition refuses_duplicates
    (rejects : list CodeChunkClass -> CodeChunkClass -> option JsError) : Prop :=
  forall held c, class c ∈ map class held -> is_Some (rejects held c).

Definition unique_names_store
    : list CodeChunkClass -> CodeChunkClass -> option JsError :=
  fun held c =>
    if bool_decide (class c ∈ map class held)
    then Some (mkError "class already exists") else None.

Definition fresh_world : World := {| store := []; console := [] |}.

End SecondDraft.

(** The name and properties of the draft class, as a schema whose stored
    shape [conforms] can check. *)
Definition draft_shape (c : SecondDraft.CodeChunkClass) : ClassSchema :=
  {| class := SecondDraft.class c;
     namedVectors := ∅;
     properties := SecondDraft.properties c |}.

(** Every property of [c1] whose name is not in [skip] is declared by [c2]
    under the same name with the same dataType. *)
Definition carried_over (skip : list string) (c1 c2 : ClassSchema) : bool :=
  forallb
    (fun p1 =>
       bool_decide (name p1 ∈ skip)
       || existsb (fun p2 => bool_decide (name p2 = name p1)
                             && bool_decide (dataType p2 = dataType p1))
            (properties c2))
    (properties c1).

(** A chunk as the draft class stores it, without commit hash or links. *)
Definition sample_code_chunk : gmap string Value :=
  <["content" := VText "export function helperFunction() {}"]>
  (<["repoId" := VText "repoA"]>
  (<["filePath" := VText "src/a.ts"]>
  (<["contentHash" := VText "9f2c"]>
  (<["lineStart" := VInt 1]>
  (<["lineEnd" := VInt 1]>
  (<["referenceSymbols" := VText "helperFunction"]> ∅)))))).

Definition sample_typed_chunk : Json :=
  JObj (<["content" := JStr "export function helperFunction() {}"]>
        (<["commentary" := JStr "A helper."]>
        (<["filePath" := JStr "src/a.ts"]>
        (<["lineStart" := JNum 1]>
        (<["lineEnd" := JNum 1]>
        (<["language" := JStr "typescript"]>
        (<["declarationType" := JStr "function"]>
        (<["references" := JArr [JStr "helperFunction"]]> ∅)))))))).


(** * Properties *)

Lemma createAllSchemas_success rejects w w' :
  createAllSchemas rejects w = (Returned tt, w') ->
  store w' = store w ++ [chunkSchema; fileVersionSchema; commitFileVersionSchema].
Proof.
  unfold createAllSchemas, try_catch, mbind, Eff_mbind, eff_bind, classCreator_do,
    console_log, console_error, modify, throw.
  destruct (rejects (store w) chunkSchema); simpl; [discriminate|].
  destruct (rejects (store w ++ [chunkSchema]) fileVersionSchema);
    simpl; [discriminate|].
  destruct (rejects ((store w ++ [chunkSchema]) ++ [fileVersionSchema])
              commitFileVersionSchema); simpl; [discriminate|].
  intros [= <-]. simpl. by rewrite <- !app_assoc.
Qed.

Lemma conforms_lookup c (o : gmap string Value) k v :
  conforms c o = true -> o !! k = Some v ->
  exists p, p ∈ properties c /\ name p = k /\ value_fits (dataType p) v = true.
Proof.
  unfold conforms. rewrite forallb_forall. intros Hall Hk.
  apply elem_of_map_to_list, list_elem_of_In, Hall in Hk.
  apply existsb_exists in Hk as (p & Hp & Hfit). simpl in Hfit.
  apply andb_true_iff in Hfit as [Hn Hv]. apply bool_decide_eq_true in Hn.
  exists p. by rewrite list_elem_of_In.
Qed.

Lemma value_fits_refs dt targets t :
  value_fits dt (VRefs targets) = true -> t ∈ targets -> t.1 ∈ dt.
Proof.
  simpl. intros [_ H]%andb_true_iff Ht.
  rewrite forallb_forall in H. apply list_elem_of_In, H in Ht.
  by apply bool_decide_eq_true in Ht.
Qed.

(** Case split on membership in a literal list. *)
Ltac list_cases H :=
  repeat (apply elem_of_cons in H as [H|H]; [try discriminate H; subst|]);
  try (apply elem_of_nil in H; destruct H).

(** C1 (evaluation at the failing input): run against a fresh store that
    accepts every class, [createAllSchemas] returns normally and reports
    success, yet the store then holds only Chunk, FileVersion and
    CommitFileVersion: ContentEntityDefinition and ContentEntityReference
    are never sent to the store. *)
Theorem createAllSchemas_omits_entity_classes :
  exists w',
    createAllSchemas accept_all fresh_world = (Returned tt, w') /\
    class_names w' = ["Chunk"; "FileVersion"; "CommitFileVersion"] /\
    ("ContentEntityDefinition" ∉ class_names w') /\
    ("ContentEntityReference" ∉ class_names w') /\
    ~ (forall k, k ∈ persisted_kinds -> k ∈ class_names w') /\
    console w' = [ConsoleLog [AStr "All schemas created successfully."]].
Proof.
  eexists. split; [reflexivity|]. cbn.
  split; [reflexivity|].
  assert (Hd : "ContentEntityDefinition" ∉ ["Chunk"; "FileVersion"; "CommitFileVersion"]).
  { intros H. list_cases H; discriminate. }
  repeat split; try done.
  - intros H. list_cases H; discriminate.
  - intros Hall. apply Hd, Hall. unfold persisted_kinds.
    do 3 apply list_elem_of_further. apply list_elem_of_here.
Qed.

(** C3: a stored ContentEntityReference has only usage-side facts.  The
    class declares exactly identifierUsed, referenceType, fileVersion,
    filePath, lineStart, lineEnd and appearsInChunk; every key of a record
    of that shape is one of these, none is a definition-side field, and its
    only cross-references are to the owning FileVersion and the owning
    Chunk, never to a ContentEntityDefinition. *)
Theorem reference_record_usage_side_only (o : gmap string Value) :
  conforms contentEntityReferenceSchema o = true ->
  property_names contentEntityReferenceSchema = usage_side_fields /\
  (forall k, is_Some (o !! k) -> k ∈ usage_side_fields) /\
  o !! "identifier" = None /\ o !! "entityType" = None /\
  o !! "definedInChunk" = None /\
  (forall k targets t, o !! k = Some (VRefs targets) -> t ∈ targets ->
     (k = "fileVersion" /\ t.1 = "FileVersion") \/
     (k = "appearsInChunk" /\ t.1 = "Chunk")).
Proof.
  intros Hc.
  assert (Hkeys : forall k, is_Some (o !! k) -> k ∈ usage_side_fields).
  { intros k [v Hk].
    destruct (conforms_lookup _ _ _ _ Hc Hk) as (p & Hp & <- & _).
    change (name p ∈ property_names contentEntityReferenceSchema).
    unfold property_names. by apply list_elem_of_fmap_2. }
  assert (Habsent : forall k, k ∉ usage_side_fields -> o !! k = None).
  { intros k Hk. apply eq_None_not_Some. intros H. by apply Hk, Hkeys. }
  split; [reflexivity|]. split; [exact Hkeys|].
  repeat split.
  - apply Habsent. intros H. unfold usage_side_fields in H. list_cases H; discriminate.
  - apply Habsent. intros H. unfold usage_side_fields in H. list_cases H; discriminate.
  - apply Habsent. intros H. unfold usage_side_fields in H. list_cases H; discriminate.
  - intros k targets t Hk Ht.
    destruct (conforms_lookup _ _ _ _ Hc Hk) as (p & Hp & <- & Hfit).
    pose proof (value_fits_refs _ _ _ Hfit Ht) as Hcls.
    simpl in Hp. list_cases Hp; simpl in *; try discriminate Hfit;
      list_cases Hcls; auto.
Qed.

Lemma reference_record_usage_side_only_witness :
  conforms contentEntityReferenceSchema sample_reference = true /\
  sample_reference !! "definedInChunk" = None.
Proof.
  assert (H : conforms contentEntityReferenceSchema sample_reference = true)
    by (vm_compute; reflexivity).
  split; [exact H|].
  exact (proj1 (proj2 (proj2 (proj2 (proj2
    (reference_record_usage_side_only sample_reference H)))))).
Defined.


Lemma stored_under_inv {F} c (o : StoredObject F) :
  stored_under c o = true ->
  conforms c (obj_properties o) = true /\
  forall n v, obj_vectors o !! n = Some v -> is_Some (namedVectors c !! n).
Proof.
  unfold stored_under. intros [Hc Hv]%andb_true_iff. split; [exact Hc|].
  intros n v Hn. rewrite forallb_forall in Hv.
  apply elem_of_map_to_list, list_elem_of_In, Hv in Hn.
  by apply bool_decide_eq_true in Hn.
Qed.




(** *** Inversion of [has_type] *)

Lemma has_type_string v : has_type TString v = true -> exists s, v = JStr s.
Proof. destruct v; try discriminate. eauto. Qed.

Lemma has_type_number v : has_type TNumber v = true -> exists n, v = JNum n.
Proof. destruct v; try discriminate. eauto. Qed.

Lemma has_type_boolean v : has_type TBoolean v = true -> exists b, v = JBool b.
Proof. destruct v; try discriminate. eauto. Qed.

Lemma has_type_array e v :
  has_type (TArray e) v = true ->
  exists items, v = JArr items /\ forall x, x ∈ items -> has_type e x = true.
Proof.
  destruct v as [| | | |items|]; try discriminate. simpl. intros H.
  exists items. split; [reflexivity|]. intros x Hx.
  rewrite forallb_forall in H. by apply H, list_elem_of_In.
Qed.

Lemma has_type_object ms v :
  has_type (TObject ms) v = true ->
  exists fields, v = JObj fields /\
    forall n opt mt, (n, opt, mt) ∈ ms ->
      match fields !! n with
      | Some x => has_type mt x = true
      | None => opt = true
      end.
Proof.
  destruct v as [| | | | |fields]; try discriminate. simpl. intros H.
  exists fields. split; [reflexivity|].
  induction ms as [|[[n0 opt0] mt0] ms IH]; intros n opt mt Hin.
  - by apply elem_of_nil in Hin.
  - apply andb_true_iff in H as [Hhd Htl].
    apply elem_of_cons in Hin as [[= -> -> ->]|Hin]; [|by apply IH].
    by destruct (fields !! n0).
Qed.

Lemma required_member (ms : list (string * bool * TsType))
    (fields : gmap string Json) n mt :
  (forall n opt mt, (n, opt, mt) ∈ ms ->
     match fields !! n with
     | Some x => has_type mt x = true
     | None => opt = true
     end) ->
  (n, false, mt) ∈ ms ->
  exists x, fields !! n = Some x /\ has_type mt x = true.
Proof.
  intros H Hin. specialize (H _ _ _ Hin).
  destruct (fields !! n) as [x|]; [eauto|discriminate].
Qed.

Lemma optional_member (ms : list (string * bool * TsType))
    (fields : gmap string Json) n mt :
  (forall n opt mt, (n, opt, mt) ∈ ms ->
     match fields !! n with
     | Some x => has_type mt x = true
     | None => opt = true
     end) ->
  (n, true, mt) ∈ ms ->
  fields !! n = None \/ exists x, fields !! n = Some x /\ has_type mt x = true.
Proof.
  intros H Hin. specialize (H _ _ _ Hin).
  destruct (fields !! n) as [x|]; eauto.
Qed.

(** Membership in a literal list, decided by position. *)
Ltac in_list := repeat first [apply list_elem_of_here | apply list_elem_of_further].

(** C6 (as claimed, refuted): the README's example request with the repo's
    versionSpecifier left out is not a QueryRequest, while the full example
    is one: the member is declared without [?]. *)
Lemma version_specifier_is_required :
  has_type QueryRequest sample_request = true /\
  has_type QueryRequest request_without_version = false /\
  ("versionSpecifier", false) ∈ members_of Repo /\
  ("versionSpecifier", true) ∉ members_of Repo.
Proof.
  split; [vm_compute; reflexivity|].
  split; [vm_compute; reflexivity|].
  split; [simpl; in_list|].
  simpl. intros H. list_cases H.
Qed.

Lemma has_type_message m : has_type Message m = true <-> is_message m.
Proof.
  split.
  - intros (mf & -> & Hm)%has_type_object.
    destruct (required_member _ _ "role" TString Hm) as (r & Hr & (? & ->)%has_type_string);
      [in_list|].
    destruct (required_member _ _ "content" TString Hm) as (c & Hc & (? & ->)%has_type_string);
      [in_list|].
    by eexists _, _, _.
  - intros (mf & role & content & -> & Hr & Hc). simpl. by rewrite Hr, Hc.
Qed.

Lemma has_type_repo r : has_type Repo r = true <-> is_repo r.
Proof.
  split.
  - intros (rf & -> & Hm)%has_type_object.
    destruct (required_member _ _ "originUri" TString Hm)
      as (u & Hu & (? & ->)%has_type_string); [in_list|].
    destruct (required_member _ _ "versionSpecifier" TString Hm)
      as (v & Hv & (? & ->)%has_type_string); [in_list|].
    eexists _, _, _. repeat split; eauto.
    destruct (optional_member _ _ "checkoutPath" TString Hm)
      as [Hn|(p & Hp & (? & ->)%has_type_string)]; [in_list|by left|eauto].
  - intros (rf & uri & ver & -> & Hu & Hv & Hp). simpl. rewrite Hu, Hv.
    by destruct Hp as [->|(p & ->)].
Qed.

Lemma has_type_declaration d : has_type Declaration d = true <-> is_declaration d.
Proof.
  split.
  - intros (df & -> & Hm)%has_type_object.
    destruct (required_member _ _ "repoId" TString Hm)
      as (u & Hu & (? & ->)%has_type_string); [in_list|].
    destruct (required_member _ _ "path" TString Hm)
      as (v & Hv & (? & ->)%has_type_string); [in_list|].
    destruct (required_member _ _ "includeImplementation" TBoolean Hm)
      as (b & Hb & (? & ->)%has_type_boolean); [in_list|].
    by eexists _, _, _, _.
  - intros (df & id & p & b & -> & Hi & Hp & Hb). simpl. by rewrite Hi, Hp, Hb.
Qed.

Lemma forallb_elem_of {A} (f : A -> bool) (l : list A) :
  forallb f l = true <-> forall x, x ∈ l -> f x = true.
Proof.
  rewrite forallb_forall. split; intros H x Hx; apply H; by apply list_elem_of_In.
Qed.

Lemma has_type_boost_directives b :
  has_type BoostDirectives b = true <-> is_boost_directives b.
Proof.
  split.
  - intros (bf & -> & Hm)%has_type_object. exists bf. split; [reflexivity|]. split.
    + destruct (optional_member _ _ "files" (TArray TString) Hm)
        as [Hn|(x & Hx & (fs & -> & Hfs)%has_type_array)]; [in_list|by left|].
      right. exists fs. split; [done|]. intros f Hf. by apply has_type_string, Hfs.
    + destruct (optional_member _ _ "declarations" (TArray Declaration) Hm)
        as [Hn|(x & Hx & (ds & -> & Hds)%has_type_array)]; [in_list|by left|].
      right. exists ds. split; [done|]. intros d Hd. by apply has_type_declaration, Hds.
  - intros (bf & -> & Hf & Hd).
    change (match bf !! "files" with
            | Some x => has_type (TArray TString) x | None => true end
            && (match bf !! "declarations" with
                | Some x => has_type (TArray Declaration) x | None => true end
                && true) = true).
    apply andb_true_iff. split; [|rewrite andb_true_r].
    + destruct Hf as [->|(fs & -> & Hfs)]; [done|].
      apply forallb_elem_of. intros f Hf. by destruct (Hfs f Hf) as [s ->].
    + destruct Hd as [->|(ds & -> & Hds)]; [done|].
      apply forallb_elem_of. intros d Hd'. by apply has_type_declaration, Hds.
Qed.

(** C6 (amended): a value is accepted as a QueryRequest exactly when it
    has conversation messages, approxLength, and a list of repos, each with
    an origin and a version specifier and optionally a checkout path, and,
    optionally, boostDirectives whose files and declarations are each
    optional, a declaration having repoId, path and
    includeImplementation. *)
Theorem query_request_shape (req : Json) :
  has_type QueryRequest req = true <-> is_query_request req.
Proof.
  split.
  - intros (fields & -> & Hm)%has_type_object.
    destruct (required_member _ _ "messages" (TArray Message) Hm)
      as (x & Hx & (msgs & -> & Hmsgs)%has_type_array); [in_list|].
    destruct (required_member _ _ "approxLength" TNumber Hm)
      as (y & Hy & (n & ->)%has_type_number); [in_list|].
    destruct (required_member _ _ "repos" (TArray Repo) Hm)
      as (z & Hz & (repos & -> & Hrepos)%has_type_array); [in_list|].
    exists fields, msgs, n, repos. repeat split; try done.
    + intros m Hin. by apply has_type_message, Hmsgs.
    + intros r Hin. by apply has_type_repo, Hrepos.
    + destruct (optional_member _ _ "boostDirectives" BoostDirectives Hm)
        as [Hn|(b & Hb & Hbt)]; [in_list|by left|].
      right. exists b. split; [done|]. by apply has_type_boost_directives.
  - intros (fields & msgs & n & repos & -> & Hmsgs & Hm & Hn & Hrepos & Hr & Hb).
    change (match fields !! "messages" with
            | Some x => has_type (TArray Message) x | None => false end
            && (match fields !! "approxLength" with
                | Some x => has_type TNumber x | None => false end
            && (match fields !! "repos" with
                | Some x => has_type (TArray Repo) x | None => false end
            && (match fields !! "boostDirectives" with
                | Some x => has_type BoostDirectives x | None => true end
            && true))) = true).
    rewrite Hmsgs, Hn, Hrepos, andb_true_r.
    repeat (apply andb_true_iff; split); try done.
    + apply forallb_elem_of. intros m Hin. by apply has_type_message, Hm.
    + apply forallb_elem_of. intros r Hin. by apply has_type_repo, Hr.
    + destruct Hb as [->|(b & -> & Hb)]; [done|]. by apply has_type_boost_directives.
Qed.

Lemma query_request_shape_witness :
  has_type QueryRequest sample_request = true /\ is_query_request sample_request.
Proof.
  assert (H : has_type QueryRequest sample_request = true)
    by (vm_compute; reflexivity).
  split; [exact H|]. exact (proj1 (query_request_shape sample_request) H).
Defined.

Example parseInt_3000 : parseInt "3000" = Num 3000.
Proof. vm_compute. reflexivity. Qed.
Example parseInt_px : parseInt "  42px" = Num 42.
Proof. vm_compute. reflexivity. Qed.
Example parseInt_hex : parseInt "0x1F" = Num 31.
Proof. vm_compute. reflexivity. Qed.
Example parseInt_neg : parseInt "-17" = Num (-17).
Proof. vm_compute. reflexivity. Qed.
Example parseInt_negzero : parseInt "-0" = NegZero.
Proof. vm_compute. reflexivity. Qed.
Example parseInt_word : parseInt "abc" = NaN.
Proof. vm_compute. reflexivity. Qed.
Example parseInt_empty : parseInt "" = NaN.
Proof. vm_compute. reflexivity. Qed.
Example parseInt_rounds : parseInt "9007199254740993" = Num 9007199254740992.
Proof. vm_compute. reflexivity. Qed.
Example parseInt_rounds_up : parseInt "9007199254740995" = Num 9007199254740996.
Proof. vm_compute. reflexivity. Qed.

Lemma errorMiddleware_passes (next : Eff Main.Process unit) p p1 :
  next p = (Returned tt, p1) -> Main.errorMiddleware next p = (Returned tt, p1).
Proof. intros H. unfold Main.errorMiddleware, try_catch. by rewrite H. Qed.

Lemma errorMiddleware_responds (next : Eff Main.Process unit) p e p1 :
  next p = (Threw e, p1) ->
  Main.writable (Main.response (Main.ctx p1)) = true ->
  Main.errorMiddleware next p
  = (Returned tt, {| Main.ctx := {| Main.response := Main.internal_server_error |};
                     Main.console := Main.console p1 ++ [ConsoleError [AErr e]] |}).
Proof.
  intros H Hw. unfold Main.errorMiddleware, try_catch. rewrite H.
  unfold mbind, Eff_mbind, eff_bind, Main.console_error, modify,
    Main.set_status, Main.set_body. simpl. rewrite Hw. reflexivity.
Qed.

Lemma errorMiddleware_rethrows (next : Eff Main.Process unit) p e p1 :
  next p = (Threw e, p1) ->
  Main.writable (Main.response (Main.ctx p1)) = false ->
  Main.errorMiddleware next p = (Threw Main.not_writable, Main.logged e p1).
Proof.
  intros H Hw. unfold Main.errorMiddleware, try_catch. rewrite H.
  unfold mbind, Eff_mbind, eff_bind, Main.console_error, modify,
    Main.set_status, Main.set_body. simpl. rewrite Hw. reflexivity.
Qed.

(** C8 (as claimed, refuted): a handler that destroys the response and
    then throws.  The middleware logs the exception, but its own attempt
    to set the status throws: it does not return normally and no
    response with status 500 is produced. *)
Lemma errorMiddleware_not_writable :
  Main.compose [Main.errorMiddleware; Main.destroying_route] Main.idle
  = (Threw Main.not_writable,
     {| Main.ctx := {| Main.response :=
                         {| Main.status := 404; Main.body := None;
                            Main.writable := false |} |};
        Main.console := [ConsoleError [AErr (mkError "boom")]] |}) /\
  ~ (forall (next : Eff Main.Process unit) (p : Main.Process),
       exists p', Main.errorMiddleware next p = (Returned tt, p')).
Proof.
  assert (H : Main.compose [Main.errorMiddleware; Main.destroying_route] Main.idle
              = (Threw Main.not_writable,
                 {| Main.ctx := {| Main.response :=
                                     {| Main.status := 404; Main.body := None;
                                        Main.writable := false |} |};
                    Main.console := [ConsoleError [AErr (mkError "boom")]] |}))
    by reflexivity.
  split; [exact H|].
  intros Hall.
  destruct (Hall (Main.compose [Main.destroying_route]) Main.idle) as [p' Hp'].
  change (Main.errorMiddleware (Main.compose [Main.destroying_route]) Main.idle)
    with (Main.compose [Main.errorMiddleware; Main.destroying_route] Main.idle)
    in Hp'.
  rewrite H in Hp'. discriminate Hp'.
Qed.

(** C8 (amended): as long as the response is still writable when the
    exception reaches it, the error middleware catches whatever the rest
    of the chain throws: it logs the error, returns normally, and the
    response is status 500 with body {error: 'Internal server error'}.
    When the rest of the chain returns, its outcome is left as it is. *)
Theorem errorMiddleware_catches_writable
    (next : Eff Main.Process unit) (p : Main.Process) :
  (forall e p1, next p = (Threw e, p1) ->
     Main.writable (Main.response (Main.ctx p1)) = true ->
     exists p',
       Main.errorMiddleware next p = (Returned tt, p') /\
       Main.response (Main.ctx p') = Main.internal_server_error /\
       Main.console p' = Main.console p1 ++ [ConsoleError [AErr e]]) /\
  (forall p1, next p = (Returned tt, p1) ->
     Main.errorMiddleware next p = (Returned tt, p1)).
Proof.
  split.
  - intros e p1 H Hw. eexists. split; [by apply errorMiddleware_responds|].
    done.
  - apply errorMiddleware_passes.
Qed.

Lemma errorMiddleware_catches_writable_witness :
  Main.compose [Main.failing_route] Main.idle
    = (Threw (mkError "boom"),
       {| Main.ctx := {| Main.response :=
                           {| Main.status := 200; Main.body := None;
                              Main.writable := true |} |};
          Main.console := [] |}) /\
  exists p',
    Main.compose [Main.errorMiddleware; Main.failing_route] Main.idle
      = (Returned tt, p') /\
    Main.response (Main.ctx p') = Main.internal_server_error.
Proof.
  assert (H : Main.compose [Main.failing_route] Main.idle
              = (Threw (mkError "boom"),
                 {| Main.ctx := {| Main.response :=
                                     {| Main.status := 200; Main.body := None;
                                        Main.writable := true |} |};
                    Main.console := [] |})) by reflexivity.
  split; [exact H|].
  destruct (proj1 (errorMiddleware_catches_writable
                     (Main.compose [Main.failing_route]) Main.idle)
              _ _ H eq_refl) as (p' & Hrun & Hresp & _).
  exists p'. split; [exact Hrun|exact Hresp].
Defined.

(** C9: the listen port is [parseInt] of the PORT environment variable,
    and it is 3000 when PORT is unset or empty. *)
Theorem port_default (env : gmap string string) :
  (env !! "PORT" = None \/ env !! "PORT" = Some "" -> Main.port env = Num 3000) /\
  (forall s, env !! "PORT" = Some s -> s <> "" -> Main.port env = parseInt s).
Proof.
  unfold Main.port. split.
  - intros [->| ->]; vm_compute; reflexivity.
  - intros s -> Hs. unfold js_or. by rewrite bool_decide_eq_false_2.
Qed.

Lemma port_default_witness :
  Main.port ∅ = Num 3000 /\
  Main.port {[ "PORT" := "" ]} = Num 3000 /\
  Main.port {[ "PORT" := "8080" ]} = Num 8080.
Proof.
  split; [|split].
  - apply (proj1 (port_default ∅)). left. reflexivity.
  - apply (proj1 (port_default {[ "PORT" := "" ]})). right. reflexivity.
  - rewrite (proj2 (port_default {[ "PORT" := "8080" ]}) "8080");
      [vm_compute; reflexivity | reflexivity | discriminate].
Defined.

Example resolve_order_1 :
  Resolver.resolve "helperFunction" Resolver.from_b Resolver.store_order_1
  = [Resolver.helper_v1; Resolver.helper_other; Resolver.helper_v2].
Proof. vm_compute. reflexivity. Qed.

Example resolve_order_2 :
  Resolver.resolve "helperFunction" Resolver.from_b Resolver.store_order_2
  = [Resolver.helper_v1; Resolver.helper_other; Resolver.helper_v2].
Proof. vm_compute. reflexivity. Qed.

(** *** The tie-break order is a total order on keys *)

Lemma lex_leb_total k1 k2 :
  Resolver.lex_leb k1 k2 = true \/ Resolver.lex_leb k2 k1 = true.
Proof.
  revert k2. induction k1 as [|x k1 IH]; intros [|y k2]; simpl; auto.
  destruct (Z.ltb_spec x y), (Z.ltb_spec y x), (Z.eqb_spec x y),
    (Z.eqb_spec y x); simpl; auto; try lia.
Qed.

Lemma lex_leb_trans k1 k2 k3 :
  Resolver.lex_leb k1 k2 = true -> Resolver.lex_leb k2 k3 = true ->
  Resolver.lex_leb k1 k3 = true.
Proof.
  revert k2 k3. induction k1 as [|x k1 IH]; intros [|y k2] [|z k3]; simpl;
    try done.
  destruct (Z.ltb_spec x y), (Z.ltb_spec y z), (Z.ltb_spec x z),
    (Z.eqb_spec x y), (Z.eqb_spec y z), (Z.eqb_spec x z);
    simpl; try done; try lia.
  apply IH.
Qed.

Lemma lex_leb_antisym k1 k2 :
  Resolver.lex_leb k1 k2 = true -> Resolver.lex_leb k2 k1 = true -> k1 = k2.
Proof.
  revert k2. induction k1 as [|x k1 IH]; intros [|y k2]; simpl; try done.
  destruct (Z.ltb_spec x y), (Z.ltb_spec y x), (Z.eqb_spec x y),
    (Z.eqb_spec y x); simpl; try done; try lia.
  intros H1 H2. subst. f_equal. by apply IH.
Qed.

#[local] Instance candidate_le_total c : Total (Resolver.candidate_le c).
Proof.
  intros a b. unfold Resolver.candidate_le.
  destruct (lex_leb_total (Resolver.rank_key c a) (Resolver.rank_key c b))
    as [H|H]; rewrite H; [by left|by right].
Qed.

#[local] Instance candidate_le_trans c : Transitive (Resolver.candidate_le c).
Proof.
  intros x y z. unfold Resolver.candidate_le. rewrite !Is_true_true.
  apply lex_leb_trans.
Qed.

(** Two records that the order cannot tell apart have the same identity. *)
Lemma candidate_le_same_id c a b :
  Resolver.candidate_le c a b -> Resolver.candidate_le c b a ->
  Resolver.def_id a = Resolver.def_id b.
Proof.
  unfold Resolver.candidate_le. rewrite !Is_true_true. intros H1 H2.
  pose proof (lex_leb_antisym _ _ H1 H2) as Hk.
  unfold Resolver.rank_key in Hk. injection Hk as _ _ _ Hid. lia.
Qed.

Lemma unique_by_id (defs : list Resolver.ContentEntityDefinition) a b :
  NoDup (Resolver.def_id <$> defs) -> a ∈ defs -> b ∈ defs ->
  Resolver.def_id a = Resolver.def_id b -> a = b.
Proof.
  induction defs as [|d defs IH]; intros Hnd Ha Hb Hid.
  - by apply elem_of_nil in Ha.
  - rewrite fmap_cons in Hnd. apply NoDup_cons in Hnd as [Hd Hnd].
    apply elem_of_cons in Ha as [->|Ha]; apply elem_of_cons in Hb as [->|Hb].
    + reflexivity.
    + destruct Hd. rewrite Hid. by apply list_elem_of_fmap_2.
    + destruct Hd. rewrite <- Hid. by apply list_elem_of_fmap_2.
    + by apply IH.
Qed.

Lemma resolve_subset identifierUsed c defs d :
  d ∈ Resolver.resolve identifierUsed c defs -> d ∈ defs.
Proof.
  unfold Resolver.resolve. rewrite merge_sort_Permutation, list_elem_of_filter.
  tauto.
Qed.

(** C5: resolution is deterministic.  For the same identifier and
    constraints, and a store holding the same definition records (each
    with its own identity), [resolve] returns the same ordered candidate
    list whatever order the store hands the records over in; in
    particular two calls on the same answer agree.  The final tie-break on
    definition identity is what makes the order total. *)
Theorem resolve_deterministic identifierUsed c
    (defs1 defs2 : list Resolver.ContentEntityDefinition) :
  NoDup (Resolver.def_id <$> defs1) ->
  defs1 ≡ₚ defs2 ->
  Resolver.resolve identifierUsed c defs1 = Resolver.resolve identifierUsed c defs2.
Proof.
  intros Hnd Hperm.
  apply (Sorted_unique_strong (Resolver.candidate_le c)).
  - intros a b Ha Hb Hab Hba.
    apply resolve_subset in Ha, Hb. rewrite <- Hperm in Hb.
    eauto using unique_by_id, candidate_le_same_id.
  - apply Sorted_merge_sort, _.
  - apply Sorted_merge_sort, _.
  - unfold Resolver.resolve. by rewrite !merge_sort_Permutation, Hperm.
Qed.

Lemma resolve_deterministic_witness :
  Resolver.resolve "helperFunction" Resolver.from_b Resolver.store_order_1
  = Resolver.resolve "helperFunction" Resolver.from_b Resolver.store_order_2.
Proof.
  apply resolve_deterministic.
  - apply (bool_decide_unpack _). vm_compute. exact I.
  - unfold Resolver.store_order_1, Resolver.store_order_2.
    apply (Permutation_rev
             [Resolver.helper_v1; Resolver.helper_v2;
              Resolver.helper_other; Resolver.my_class]).
Defined.

(** ** Runs of [createAllSchemas], path by path *)

Section Runs.

Variable rejects : list ClassSchema -> ClassSchema -> option JsError.
Variable w : World.

Lemma run_refused_1 e :
  rejects (store w) chunkSchema = Some e ->
  createAllSchemas rejects w
  = (Threw e, {| store := store w; console := console w ++ [error_line e] |}).
Proof.
  intros H. unfold createAllSchemas, try_catch, mbind, Eff_mbind, eff_bind,
    classCreator_do. by rewrite H.
Qed.

Lemma run_refused_2 e :
  rejects (store w) chunkSchema = None ->
  rejects (store w ++ [chunkSchema]) fileVersionSchema = Some e ->
  createAllSchemas rejects w
  = (Threw e, {| store := store w ++ [chunkSchema];
                 console := console w ++ [error_line e] |}).
Proof.
  intros H1 H2. unfold createAllSchemas, try_catch, mbind, Eff_mbind, eff_bind,
    classCreator_do. rewrite H1. simpl. by rewrite H2.
Qed.

Lemma run_refused_3 e :
  rejects (store w) chunkSchema = None ->
  rejects (store w ++ [chunkSchema]) fileVersionSchema = None ->
  rejects (store w ++ [chunkSchema; fileVersionSchema]) commitFileVersionSchema
    = Some e ->
  createAllSchemas rejects w
  = (Threw e, {| store := store w ++ [chunkSchema; fileVersionSchema];
                 console := console w ++ [error_line e] |}).
Proof.
  intros H1 H2 H3. unfold createAllSchemas, try_catch, mbind, Eff_mbind, eff_bind,
    classCreator_do. rewrite H1. simpl. rewrite H2. simpl.
  rewrite <- app_assoc. simpl. by rewrite H3.
Qed.

Lemma run_accepted :
  rejects (store w) chunkSchema = None ->
  rejects (store w ++ [chunkSchema]) fileVersionSchema = None ->
  rejects (store w ++ [chunkSchema; fileVersionSchema]) commitFileVersionSchema
    = None ->
  createAllSchemas rejects w
  = (Returned tt, {| store := store w ++ created_classes;
                     console := console w ++ [success_line] |}).
Proof.
  intros H1 H2 H3. unfold createAllSchemas, try_catch, mbind, Eff_mbind, eff_bind,
    classCreator_do. rewrite H1. simpl. rewrite H2. simpl.
  rewrite <- app_assoc. simpl. rewrite H3. simpl.
  by rewrite <- app_assoc.
Qed.

End Runs.

(** Split a run of [createAllSchemas] into its four paths. *)
Ltac run_cases rejects w :=
  let e := fresh "e0" in
  let H1 := fresh "Hchunk" in
  let H2 := fresh "Hfile" in
  let H3 := fresh "Hcommit" in
  destruct (rejects (store w) chunkSchema) as [e|] eqn:H1;
  [ rewrite (run_refused_1 rejects w e H1)
  | destruct (rejects (store w ++ [chunkSchema]) fileVersionSchema)
      as [e|] eqn:H2;
    [ rewrite (run_refused_2 rejects w e H1 H2)
    | destruct (rejects (store w ++ [chunkSchema; fileVersionSchema])
                  commitFileVersionSchema) as [e|] eqn:H3;
      [ rewrite (run_refused_3 rejects w e H1 H2 H3)
      | rewrite (run_accepted rejects w H1 H2 H3) ] ] ].

(** X1: whatever the store and its earlier contents, a run that returns
    normally has had all three creations accepted in turn, has appended
    Chunk, FileVersion and CommitFileVersion in that order to the classes
    the store held, and has written the success line and nothing else to
    the console. *)
Theorem createAllSchemas_returns rejects w w' :
  createAllSchemas rejects w = (Returned tt, w') ->
  store w' = store w ++ created_classes /\
  console w' = console w ++ [success_line] /\
  rejects (store w) chunkSchema = None /\
  rejects (store w ++ [chunkSchema]) fileVersionSchema = None /\
  rejects (store w ++ [chunkSchema; fileVersionSchema]) commitFileVersionSchema
    = None.
Proof.
  run_cases rejects w; intros H; try discriminate H.
  injection H as <-. done.
Qed.

Lemma createAllSchemas_returns_witness :
  createAllSchemas accept_all fresh_world
    = (Returned tt, {| store := created_classes; console := [success_line] |}) /\
  store {| store := created_classes; console := [success_line] |}
    = store fresh_world ++ created_classes.
Proof.
  assert (H : createAllSchemas accept_all fresh_world
              = (Returned tt, {| store := created_classes;
                                 console := [success_line] |}))
    by reflexivity.
  split; [exact H|].
  exact (proj1 (createAllSchemas_returns accept_all fresh_world _ H)).
Defined.

(** X2: a run that throws has been refused by the store at one of the
    three creations.  It rethrows the store's own error, writes the error
    line once and no success line, and leaves in the store the classes
    created before the refusal: nothing is rolled back. *)
Theorem createAllSchemas_throws rejects w e w' :
  createAllSchemas rejects w = (Threw e, w') ->
  exists (k : nat) (c : ClassSchema),
    created_classes !! k = Some c /\
    store w' = store w ++ take k created_classes /\
    rejects (store w') c = Some e /\
    console w' = console w ++ [error_line e].
Proof.
  run_cases rejects w; intros H; try discriminate H; injection H as <- <-.
  - exists 0%nat, chunkSchema. simpl. by rewrite app_nil_r.
  - exists 1%nat, fileVersionSchema. done.
  - exists 2%nat, commitFileVersionSchema. done.
Qed.

Lemma createAllSchemas_throws_witness :
  createAllSchemas no_file_version fresh_world
    = (Threw (mkError "refused"),
       {| store := [chunkSchema];
          console := [error_line (mkError "refused")] |}) /\
  exists (k : nat) (c : ClassSchema),
    created_classes !! k = Some c /\
    [chunkSchema] = [] ++ take k created_classes /\
    no_file_version [chunkSchema] c = Some (mkError "refused") /\
    [error_line (mkError "refused")] = [] ++ [error_line (mkError "refused")].
Proof.
  assert (H : createAllSchemas no_file_version fresh_world
              = (Threw (mkError "refused"),
                 {| store := [chunkSchema];
                    console := [error_line (mkError "refused")] |}))
    by reflexivity.
  split; [exact H|].
  exact (createAllSchemas_throws no_file_version fresh_world _ _ H).
Defined.

(** X3: on every path, the classes the store held and the lines the
    console held before the run are still there afterwards, in the same
    order: a run only appends. *)
Theorem createAllSchemas_only_appends rejects w :
  store w `prefix_of` store (createAllSchemas rejects w).2 /\
  console w `prefix_of` console (createAllSchemas rejects w).2 /\
  length (console (createAllSchemas rejects w).2) = S (length (console w)).
Proof.
  run_cases rejects w; simpl; rewrite ?length_app; simpl;
    (split; [|split]); try apply prefix_app_r; try reflexivity; try lia.
Qed.

Lemma unique_names_store_refuses : refuses_duplicates unique_names_store.
Proof.
  intros held c H. unfold unique_names_store.
  rewrite bool_decide_eq_true_2 by done. eauto.
Qed.

Lemma strict_store_checks : checks_references strict_store.
Proof.
  intros held c t Ht Hself Hheld. unfold strict_store.
  assert (Hex : existsb
            (fun t => negb (bool_decide (t = class c))
                      && negb (bool_decide (t ∈ map class held)))
            (ref_targets c) = true).
  { apply existsb_exists. exists t. split; [by apply list_elem_of_In|].
    by rewrite !bool_decide_eq_false_2. }
  rewrite Hex. eauto.
Qed.

(** X4: against a store that refuses a class whose name it already holds,
    [createAllSchemas] cannot be run twice: after a run that returned, the
    next run is refused at the Chunk class, throws, and leaves the store's
    classes as they were. *)
Theorem createAllSchemas_second_run rejects w w1 :
  refuses_duplicates rejects ->
  createAllSchemas rejects w = (Returned tt, w1) ->
  exists e,
    rejects (store w1) chunkSchema = Some e /\
    createAllSchemas rejects w1
    = (Threw e, {| store := store w1;
                   console := console w1 ++ [error_line e] |}).
Proof.
  intros Hdup Hrun.
  assert (Hstore : store w1 = store w ++ created_classes).
  { revert Hrun. run_cases rejects w; intros H; try discriminate H.
    by injection H as <-. }
  destruct (Hdup (store w1) chunkSchema) as [e He].
  { rewrite Hstore, map_app. apply elem_of_app. right. simpl. in_list. }
  exists e. split; [exact He|]. by apply run_refused_1.
Qed.

Lemma createAllSchemas_second_run_witness :
  refuses_duplicates unique_names_store /\
  exists e,
    createAllSchemas unique_names_store
      {| store := created_classes; console := [success_line] |}
    = (Threw e, {| store := created_classes;
                   console := [success_line] ++ [error_line e] |}).
Proof.
  split; [exact unique_names_store_refuses|].
  destruct (createAllSchemas_second_run unique_names_store fresh_world
              {| store := created_classes; console := [success_line] |}
              unique_names_store_refuses eq_refl) as (e & _ & H).
  exists e. exact H.
Defined.

(** X5: the Chunk class refers to FileVersion and is sent first.  Against
    a store that refuses a class with a cross-reference to a class it does
    not hold, a run on a store without FileVersion is refused at the very
    first creation: it throws and creates nothing. *)
Theorem createAllSchemas_forward_reference rejects w :
  checks_references rejects ->
  "FileVersion" ∉ class_names w ->
  exists e,
    rejects (store w) chunkSchema = Some e /\
    createAllSchemas rejects w
    = (Threw e, {| store := store w; console := console w ++ [error_line e] |}).
Proof.
  intros Hchk Habsent.
  destruct (Hchk (store w) chunkSchema "FileVersion") as [e He].
  - vm_compute. in_list.
  - discriminate.
  - exact Habsent.
  - exists e. split; [exact He|]. by apply run_refused_1.
Qed.

Lemma createAllSchemas_forward_reference_witness :
  checks_references strict_store /\
  ("FileVersion" ∉ class_names fresh_world) /\
  exists e,
    createAllSchemas strict_store fresh_world
    = (Threw e, {| store := []; console := [] ++ [error_line e] |}).
Proof.
  assert (Habs : "FileVersion" ∉ class_names fresh_world)
    by (intros H; apply elem_of_nil in H; exact H).
  split; [exact strict_store_checks|]. split; [exact Habs|].
  destruct (createAllSchemas_forward_reference strict_store fresh_world
              strict_store_checks Habs) as (e & _ & H).
  exists e. exact H.
Defined.

(** X6: after a run that returned, every class that a cross-reference of
    a created class points to is held by the store: the three classes
    refer only to Chunk and FileVersion, which the run itself created. *)
Theorem createAllSchemas_references_resolve rejects w w' :
  createAllSchemas rejects w = (Returned tt, w') ->
  forall c t, c ∈ created_classes -> t ∈ ref_targets c -> t ∈ class_names w'.
Proof.
  intros Hrun c t Hc Ht.
  assert (Hstore : store w' = store w ++ created_classes).
  { revert Hrun. run_cases rejects w; intros H; try discriminate H.
    by injection H as <-. }
  unfold class_names. rewrite Hstore, map_app. apply elem_of_app. right.
  unfold created_classes in Hc. list_cases Hc;
    vm_compute in Ht; list_cases Ht; simpl; in_list.
Qed.

Lemma createAllSchemas_references_resolve_witness :
  "FileVersion" ∈ class_names {| store := created_classes;
                                   console := [success_line] |}.
Proof.
  apply (createAllSchemas_references_resolve accept_all fresh_world _ eq_refl
           chunkSchema "FileVersion").
  - unfold created_classes. in_list.
  - vm_compute. in_list.
Defined.

(** ** [parseInt] on decimal numerals *)

Lemma parseInt_steps s :
  parseInt s =
  let '(negative, b) := split_sign (trim_start s) in
  let '(R, d) := split_radix b in
  to_number negative (parse_digits R d None).
Proof. reflexivity. Qed.

Lemma trim_start_white ws s :
  all_white_space ws = true -> trim_start (ws +:+ s) = trim_start s.
Proof.
  induction ws as [|c ws IH]; simpl; [done|].
  intros [Hc Hws]%andb_true_iff. rewrite Hc. by apply IH.
Qed.

Lemma parse_digits_stop s acc :
  stops_decimal s -> parse_digits 10 s acc = acc.
Proof.
  destruct s as [|c s]; [done|]. simpl. unfold is_decimal_digit, digit_value.
  intros H. destruct ((48 <=? code c) && (code c <=? 57)); [done|].
  destruct ((97 <=? code c) && (code c <=? 122)) eqn:Hl.
  { apply andb_true_iff in Hl as [Hl _]. apply Z.leb_le in Hl.
    by rewrite (proj2 (Z.ltb_ge _ _)) by lia. }
  destruct ((65 <=? code c) && (code c <=? 90)) eqn:Hu; [|done].
  apply andb_true_iff in Hu as [Hu _]. apply Z.leb_le in Hu.
  by rewrite (proj2 (Z.ltb_ge _ _)) by lia.
Qed.

Lemma split_radix_stop s : stops_decimal s -> split_radix s = (10, s).
Proof.
  destruct s as [|c s]; [done|]. simpl.
  destruct c as [[] [] [] [] [] [] [] []]; try reflexivity.
  intros H. vm_compute in H. discriminate H.
Qed.

(** A digit character and its value. *)
Lemma digit_cases (d : N) :
  (d < 10)%N ->
  d = 0%N \/ d = 1%N \/ d = 2%N \/ d = 3%N \/ d = 4%N \/ d = 5%N \/
  d = 6%N \/ d = 7%N \/ d = 8%N \/ d = 9%N.
Proof. lia. Qed.

Lemma digit_value_pretty (d : N) :
  (d < 10)%N -> digit_value (pretty_N_char d) = Some (Z.of_N d).
Proof.
  intros H. destruct (digit_cases d H) as [->|[->|[->|[->|[->|[->|[->|[->|[->| ->]]]]]]]]];
    reflexivity.
Qed.

Lemma pretty_N_go_app x s r :
  pretty_N_go x s +:+ r = pretty_N_go x (s +:+ r).
Proof.
  revert s. induction (N.lt_wf_0 x) as [x _ IH]; intros s.
  destruct (decide (x = 0%N)) as [->|Hx]; [by rewrite !pretty_N_go_0|].
  rewrite (pretty_N_go_step x s), (pretty_N_go_step x (s +:+ r)) by lia.
  rewrite IH; [done|]. apply N.div_lt; lia.
Qed.

(** Reading back the digits written for [x]. *)
Lemma parse_digits_pretty_go x s :
  parse_digits 10 (pretty_N_go x s) None
  = parse_digits 10 s (if decide (x = 0%N) then None else Some (Z.of_N x)).
Proof.
  revert s. induction (N.lt_wf_0 x) as [x _ IH]; intros s.
  destruct (decide (x = 0%N)) as [->|Hx]; [by rewrite pretty_N_go_0|].
  rewrite pretty_N_go_step by lia.
  rewrite IH by (apply N.div_lt; lia). simpl.
  rewrite digit_value_pretty by (apply N.mod_lt; lia).
  assert (Hlt : (Z.of_N (x `mod` 10) <? 10) = true).
  { apply Z.ltb_lt. pose proof (N.mod_lt x 10). lia. }
  rewrite Hlt. f_equal. f_equal.
  pose proof (N.div_mod x 10 ltac:(lia)) as Hdm.
  destruct (decide (x `div` 10 = 0)%N) as [H0|H0]; simpl; lia.
Qed.

(** A positive number is written with a leading digit from 1 to 9. *)
Lemma pretty_N_go_head x s :
  (0 < x)%N ->
  exists d tl, (1 <= d <= 9)%N /\ pretty_N_go x s = String (pretty_N_char d) tl.
Proof.
  revert s. induction (N.lt_wf_0 x) as [x _ IH]; intros s Hx.
  rewrite pretty_N_go_step by done.
  destruct (decide (x `div` 10 = 0)%N) as [H0|H0].
  - rewrite H0, pretty_N_go_0. exists (x `mod` 10)%N, s. split; [|done].
    pose proof (N.div_mod x 10 ltac:(lia)). pose proof (N.mod_lt x 10). lia.
  - apply IH; [apply N.div_lt; lia|]. by apply N.neq_0_lt_0.
Qed.

Lemma nonzero_digit_head (d : N) tl :
  (1 <= d <= 9)%N ->
  trim_start (String (pretty_N_char d) tl) = String (pretty_N_char d) tl /\
  split_sign (String (pretty_N_char d) tl) = (false, String (pretty_N_char d) tl) /\
  split_radix (String (pretty_N_char d) tl) = (10, String (pretty_N_char d) tl).
Proof.
  intros H.
  assert (d = 1 \/ d = 2 \/ d = 3 \/ d = 4 \/ d = 5 \/ d = 6 \/ d = 7 \/
          d = 8 \/ d = 9)%N as [->|[->|[->|[->|[->|[->|[->|[->| ->]]]]]]]] by lia;
    repeat split; reflexivity.
Qed.

Lemma round_double_small n : 0 < n < 2 ^ 53 -> round_double n = Some n.
Proof.
  intros H. unfold round_double.
  assert (Z.log2 n < 53) by (apply Z.log2_lt_pow2; lia).
  rewrite (proj2 (Z.leb_le _ _)) by lia. done.
Qed.

(** The numeral of a positive number below 2^53, with white space before
    it and anything that is not a digit after it, reads back as the
    number. *)
Lemma parseInt_numeral (n : N) ws rest :
  (0 < n < 2 ^ 53)%N -> all_white_space ws = true -> stops_decimal rest ->
  parseInt (ws +:+ pretty n +:+ rest) = Num (Z.of_N n).
Proof.
  intros Hn Hws Hrest. rewrite parseInt_steps, trim_start_white by done.
  unfold pretty, pretty_N. rewrite decide_False by lia.
  rewrite pretty_N_go_app. change ("" +:+ rest) with rest.
  destruct (pretty_N_go_head n rest) as (d & tl & Hd & Hhead); [lia|].
  destruct (nonzero_digit_head d tl Hd) as (Ht & Hs & Hr).
  rewrite Hhead, Ht, Hs, Hr, <- Hhead, parse_digits_pretty_go.
  rewrite decide_False by lia. rewrite parse_digits_stop by done.
  unfold to_number. rewrite (proj2 (Z.eqb_neq _ _)) by lia.
  rewrite round_double_small; [done|].
  split; [lia|]. change (2 ^ 53) with (Z.of_N (2 ^ 53)). lia.
Qed.

Lemma numeral_not_empty (n : N) ws rest :
  (0 < n)%N -> ws +:+ pretty n +:+ rest <> "".
Proof.
  intros Hn. unfold pretty, pretty_N. rewrite decide_False by lia.
  rewrite pretty_N_go_app.
  destruct (pretty_N_go_head n ("" +:+ rest)) as (d & tl & _ & ->); [lia|].
  by destruct ws.
Qed.

(** X7: the server listens on the number PORT spells.  When PORT is the
    decimal numeral of a positive number below 2^53, possibly after white
    space and possibly followed by text that does not start with a digit,
    the port is that number; no range of valid ports is enforced. *)
Theorem port_reads_numeral (env : gmap string string) (n : N) ws rest :
  env !! "PORT" = Some (ws +:+ pretty n +:+ rest) ->
  (0 < n < 2 ^ 53)%N ->
  all_white_space ws = true ->
  stops_decimal rest ->
  Main.port env = Num (Z.of_N n).
Proof.
  intros Henv Hn Hws Hrest. unfold Main.port. rewrite Henv. unfold js_or.
  rewrite bool_decide_eq_false_2 by (apply numeral_not_empty; lia).
  by apply parseInt_numeral.
Qed.

Lemma port_reads_numeral_witness :
  Main.port {[ "PORT" := " " +:+ pretty 70000%N +:+ "/tcp" ]} = Num 70000.
Proof.
  apply (port_reads_numeral _ 70000%N " " "/tcp").
  - reflexivity.
  - vm_compute. split; reflexivity.
  - reflexivity.
  - reflexivity.
Defined.

(** X8: the default is for an unset or empty PORT only.  A PORT that is
    not empty but, after leading white space and one optional sign, does
    not begin with a decimal digit gives NaN, not 3000. *)
Theorem port_not_a_number (env : gmap string string) s :
  env !! "PORT" = Some s ->
  s <> "" ->
  stops_decimal (unsigned_part s) ->
  Main.port env = NaN.
Proof.
  intros Henv Hs Hstop. unfold Main.port. rewrite Henv. unfold js_or.
  rewrite bool_decide_eq_false_2 by done.
  rewrite parseInt_steps. unfold unsigned_part in Hstop.
  destruct (split_sign (trim_start s)) as [negative b]. simpl in Hstop.
  rewrite split_radix_stop by done. by rewrite parse_digits_stop.
Qed.

Lemma port_not_a_number_witness :
  Main.port {[ "PORT" := "  -http" ]} = NaN /\
  Main.port {[ "PORT" := " " ]} = NaN.
Proof.
  split.
  - apply (port_not_a_number _ "  -http"); [reflexivity|discriminate|reflexivity].
  - apply (port_not_a_number _ " "); [reflexivity|discriminate|exact I].
Defined.

(** X9: registering the error middleware twice.  As long as the response
    is still writable when the rest of the chain throws, or the rest
    returns, the middleware wrapped around itself behaves as registered
    once.  When the response is not writable, both throw the setter's
    error, and the doubled one has logged that error as a second line. *)
Theorem errorMiddleware_nested (next : Eff Main.Process unit) (p : Main.Process) :
  ((forall e p1, next p = (Threw e, p1) ->
      Main.writable (Main.response (Main.ctx p1)) = true) ->
   Main.errorMiddleware (Main.errorMiddleware next) p
   = Main.errorMiddleware next p) /\
  (forall e p1, next p = (Threw e, p1) ->
     Main.writable (Main.response (Main.ctx p1)) = false ->
     Main.errorMiddleware next p = (Threw Main.not_writable, Main.logged e p1) /\
     Main.errorMiddleware (Main.errorMiddleware next) p
     = (Threw Main.not_writable,
        Main.logged Main.not_writable (Main.logged e p1))).
Proof.
  split.
  - intros Hw. destruct (next p) as [[[]|e] p1] eqn:Hnext.
    + rewrite (errorMiddleware_passes next p p1 Hnext).
      by apply errorMiddleware_passes, errorMiddleware_passes.
    + rewrite (errorMiddleware_responds next p e p1 Hnext (Hw e p1 eq_refl)).
      by apply errorMiddleware_passes, errorMiddleware_responds, (Hw e p1).
  - intros e p1 Hnext Hw.
    pose proof (errorMiddleware_rethrows next p e p1 Hnext Hw) as Hin.
    split; [exact Hin|].
    by apply (errorMiddleware_rethrows (Main.errorMiddleware next) p _ _ Hin).
Qed.

Lemma errorMiddleware_nested_witness :
  Main.errorMiddleware (Main.errorMiddleware (Main.compose [Main.failing_route]))
    Main.idle
  = Main.errorMiddleware (Main.compose [Main.failing_route]) Main.idle /\
  Main.errorMiddleware (Main.errorMiddleware (Main.compose [Main.destroying_route]))
    Main.idle
  = (Threw Main.not_writable,
     Main.logged Main.not_writable
       (Main.logged (mkError "boom")
          {| Main.ctx := {| Main.response :=
                              {| Main.status := 404; Main.body := None;
                                 Main.writable := false |} |};
             Main.console := [] |})).
Proof.
  split.
  - apply (proj1 (errorMiddleware_nested (Main.compose [Main.failing_route])
                    Main.idle)).
    intros e p1 [= <- <-]. reflexivity.
  - apply (proj2 (errorMiddleware_nested (Main.compose [Main.destroying_route])
                    Main.idle) (mkError "boom")); reflexivity.
Defined.

(** ** The chunk type and its earlier declaration *)

Lemma has_type_object_intro (ms : list (string * bool * TsType))
    (fields : gmap string Json) :
  (forall n opt mt, (n, opt, mt) ∈ ms ->
     match fields !! n with
     | Some x => has_type mt x = true
     | None => opt = true
     end) ->
  has_type (TObject ms) (JObj fields) = true.
Proof.
  simpl. induction ms as [|[[n0 opt0] mt0] ms IH]; intros H; [done|].
  apply andb_true_iff. split.
  - specialize (H n0 opt0 mt0 ltac:(apply list_elem_of_here)).
    by destruct (fields !! n0).
  - apply IH. intros n opt mt Hin. apply H. by apply list_elem_of_further.
Qed.

(** X10: the two declarations of a code chunk agree up to the commentary.
    A value has the type of the earlier alias exactly when it is a
    CodeChunk of the interface that does carry a commentary; the interface
    alone also admits chunks without one. *)
Theorem code_chunk_alias_vs_interface (v : Json) :
  has_type FirstDraft.CodeChunk v = true <->
  has_type CodeChunk v = true /\
  exists fields s, v = JObj fields /\ fields !! "commentary" = Some (JStr s).
Proof.
  split.
  - intros H. pose proof H as (fields & -> & Hm)%has_type_object. split.
    + apply has_type_object_intro. intros n opt mt Hin.
      list_cases Hin; injection Hin as -> -> ->;
        try (eapply (Hm _ false); solve [in_list]).
      destruct (required_member _ _ "commentary" TString Hm) as (x & -> & Hx);
        [in_list|exact Hx].
    + destruct (required_member _ _ "commentary" TString Hm)
        as (x & Hx & (s & ->)%has_type_string); [in_list|]. eauto.
  - intros [(fields & -> & Hm)%has_type_object (fields' & s & [= <-] & Hc)].
    apply has_type_object_intro. intros n opt mt Hin.
    list_cases Hin; injection Hin as -> -> ->;
      try (eapply (Hm _ false); solve [in_list]).
    by rewrite Hc.
Qed.

Lemma code_chunk_alias_vs_interface_witness :
  has_type FirstDraft.CodeChunk sample_typed_chunk = true /\
  has_type CodeChunk sample_typed_chunk = true.
Proof.
  assert (H : has_type FirstDraft.CodeChunk sample_typed_chunk = true)
    by (vm_compute; reflexivity).
  split; [exact H|].
  exact (proj1 (proj1 (code_chunk_alias_vs_interface sample_typed_chunk) H)).
Defined.

(** ** From the draft class to the Chunk class *)

Lemma conforms_intro c (o : gmap string Value) :
  (forall k v, o !! k = Some v ->
     exists p, p ∈ properties c /\ name p = k /\
               value_fits (dataType p) v = true) ->
  conforms c o = true.
Proof.
  intros H. unfold conforms. apply forallb_forall. intros [k v] Hkv.
  apply list_elem_of_In, elem_of_map_to_list, H in Hkv as (p & Hp & Hn & Hfit).
  apply existsb_exists. exists p. split; [by apply list_elem_of_In|].
  simpl. by rewrite bool_decide_eq_true_2, Hfit.
Qed.

Lemma conforms_carried_over skip c1 c2 (o : gmap string Value) :
  carried_over skip c1 c2 = true ->
  conforms c1 o = true ->
  (forall k, k ∈ skip -> o !! k = None) ->
  conforms c2 o = true.
Proof.
  intros Hcarry Hc Hskip. apply conforms_intro. intros k v Hk.
  destruct (conforms_lookup _ _ _ _ Hc Hk) as (p1 & Hp1 & <- & Hfit).
  unfold carried_over in Hcarry. rewrite forallb_forall in Hcarry.
  apply list_elem_of_In, Hcarry, orb_true_iff in Hp1 as [Hs|Hex].
  - apply bool_decide_eq_true, Hskip in Hs. congruence.
  - apply existsb_exists in Hex as (p2 & Hp2 & [Hn Hdt]%andb_true_iff).
    apply bool_decide_eq_true in Hn, Hdt.
    exists p2. rewrite Hdt. by rewrite list_elem_of_In.
Qed.

(** X11: a chunk stored under the draft CodeChunk class needs no rewriting
    to be stored under the Chunk class, unless it carries a commit hash or
    links to other chunks: every other property of the draft class is
    declared by the Chunk class under the same name with the same
    dataType.  The commit hash has no counterpart in the Chunk class. *)
Theorem draft_chunk_fits_chunk_class (o : gmap string Value) :
  conforms (draft_shape SecondDraft.coraSchema) o = true ->
  o !! "commitHash" = None ->
  o !! "referenceChunks" = None ->
  conforms chunkSchema o = true /\
  ("commitHash" ∉ property_names chunkSchema).
Proof.
  intros Hc Hcommit Hlinks. split.
  - apply (conforms_carried_over ["commitHash"; "referenceChunks"]
             (draft_shape SecondDraft.coraSchema)); [by vm_compute|done|].
    intros k Hk. list_cases Hk; done.
  - intros H. vm_compute in H. list_cases H.
Qed.

Lemma draft_chunk_fits_chunk_class_witness :
  conforms (draft_shape SecondDraft.coraSchema) sample_code_chunk = true /\
  conforms chunkSchema sample_code_chunk = true.
Proof.
  assert (H : conforms (draft_shape SecondDraft.coraSchema) sample_code_chunk
              = true) by (vm_compute; reflexivity).
  split; [exact H|].
  exact (proj1 (draft_chunk_fits_chunk_class sample_code_chunk H
                  eq_refl eq_refl)).
Defined.

(** X12: [createCoraSchema] is all or nothing.  A call that returns has
    appended the CodeChunk class and logged success; a call that throws
    has left the store's classes untouched, logged the store's error once
    and rethrown it.  Against a store that refuses a class whose name it
    already holds, a call after one that returned throws. *)
Theorem createCoraSchema_all_or_nothing rejects (w : SecondDraft.World) :
  (forall w', SecondDraft.createCoraSchema rejects w = (Returned tt, w') ->
     SecondDraft.store w' = SecondDraft.store w ++ [SecondDraft.coraSchema] /\
     SecondDraft.console w'
     = SecondDraft.console w
       ++ [ConsoleLog [AStr "CodeChunk schema created successfully."]] /\
     (SecondDraft.refuses_duplicates rejects ->
      exists e w'', SecondDraft.createCoraSchema rejects w' = (Threw e, w'') /\
                    SecondDraft.store w'' = SecondDraft.store w')) /\
  (forall e w', SecondDraft.createCoraSchema rejects w = (Threw e, w') ->
     SecondDraft.store w' = SecondDraft.store w /\
     rejects (SecondDraft.store w) SecondDraft.coraSchema = Some e /\
     SecondDraft.console w'
     = SecondDraft.console w
       ++ [ConsoleError [AStr "Error creating CodeChunk schema:"; AErr e]]).
Proof.
  unfold SecondDraft.createCoraSchema, try_catch, mbind, Eff_mbind, eff_bind,
    SecondDraft.classCreator_do.
  destruct (rejects (SecondDraft.store w) SecondDraft.coraSchema) as [e0|] eqn:Hr;
    simpl; split.
  - intros w' H. discriminate H.
  - intros e w' [= <- <-]. done.
  - intros w' [= <-]. simpl. repeat split.
    intros Hdup.
    destruct (Hdup (SecondDraft.store w ++ [SecondDraft.coraSchema])
                SecondDraft.coraSchema) as [e He].
    { rewrite map_app. apply elem_of_app. right. simpl. in_list. }
    rewrite He. simpl. eauto.
  - intros e w' H. discriminate H.
Qed.

Lemma createCoraSchema_all_or_nothing_witness :
  exists w',
    SecondDraft.createCoraSchema SecondDraft.unique_names_store
      SecondDraft.fresh_world = (Returned tt, w') /\
    SecondDraft.store w' = [SecondDraft.coraSchema] /\
    exists e w'',
      SecondDraft.createCoraSchema SecondDraft.unique_names_store w'
      = (Threw e, w'') /\
      SecondDraft.store w'' = SecondDraft.store w'.
Proof.
  eexists. split; [reflexivity|].
  destruct (proj1 (createCoraSchema_all_or_nothing
                     SecondDraft.unique_names_store SecondDraft.fresh_world)
              _ eq_refl) as (Hs & _ & Hagain).
  split; [exact Hs|]. apply Hagain.
  intros held c H. unfold SecondDraft.unique_names_store.
  rewrite bool_decide_eq_true_2 by done. eauto.
Defined.
